(** * react-spectrum: SelectList, TableView sizing, column resizing, header sync

    A shallow embedding of the parts of the component library that the
    specification's properties concern:

    - [src/SelectList/js/SelectList.js]: the [SelectList] class component
      (selection state, [handleSelect], [render]);
    - the table view ([TableView], [TableVirtualizer]): the default-width
      calculators and the header/body scroll synchronisation;
    - the column resizer hook [useTableColumnResize]: the
      [startResize]/[resize]/[endResize] state machine, the move handler,
      the hidden range input's attributes and its change handler.

    JavaScript values are modelled by an inductive type; component state and
    refs are threaded explicitly; callbacks supplied by the parent are
    recorded in a log of calls. *)

From Stdlib Require Import ZArith QArith Qcanon Qround Lia.
From stdpp Require Import base numbers gmap strings list.

Open Scope Z_scope.

(** ** JavaScript numbers and values *)

Module JS.

(** A JavaScript number: [NaN], the two infinities, or a finite value.
    Finite values are exact rationals: the rounding of binary64 arithmetic is
    not modelled, and negative zero is identified with zero (the source only
    ever compares zero with [===] and [!==], which do not tell them apart). *)
Inductive number :=
| NaN
| Infinity
| NegInfinity
| Finite (q : Qc).

#[global] Instance number_eq_dec : EqDecision number.
Proof. solve_decision. Defined.

Definition of_Z (z : Z) : number := Finite (Q2Qc (inject_Z z)).

(** [Number.MAX_SAFE_INTEGER], 2^53 - 1. *)
Definition MAX_SAFE_INTEGER : number := of_Z 9007199254740991.

(** [a === b] on numbers: [NaN] is not equal to anything, itself included. *)
Definition num_eq (a b : number) : bool :=
  match a, b with
  | Infinity, Infinity => true
  | NegInfinity, NegInfinity => true
  | Finite p, Finite q => bool_decide (p = q)
  | _, _ => false
  end.

(** [a < b]: false as soon as one side is [NaN]. *)
Definition num_lt (a b : number) : bool :=
  match a, b with
  | NaN, _ | _, NaN => false
  | _, NegInfinity => false
  | NegInfinity, _ => true
  | Infinity, _ => false
  | Finite _, Infinity => true
  | Finite p, Finite q => bool_decide (Qclt p q)
  end.

(** [a > b] is [b < a]. *)
Definition num_gt (a b : number) : bool := num_lt b a.

Definition num_neg (a : number) : number :=
  match a with
  | NaN => NaN
  | Infinity => NegInfinity
  | NegInfinity => Infinity
  | Finite q => Finite (- q)%Qc
  end.

Definition num_add (a b : number) : number :=
  match a, b with
  | NaN, _ | _, NaN => NaN
  | Infinity, NegInfinity | NegInfinity, Infinity => NaN
  | Infinity, _ | _, Infinity => Infinity
  | NegInfinity, _ | _, NegInfinity => NegInfinity
  | Finite p, Finite q => Finite (p + q)%Qc
  end.

Definition num_sub (a b : number) : number := num_add a (num_neg b).

(** The product of an infinity and a finite factor [q]. *)
Definition inf_times (positive : bool) (q : Qc) : number :=
  if bool_decide (q = 0%Qc) then NaN
  else if bool_decide (Qclt 0%Qc q) then (if positive then Infinity else NegInfinity)
  else (if positive then NegInfinity else Infinity).

Definition num_mul (a b : number) : number :=
  match a, b with
  | NaN, _ | _, NaN => NaN
  | Infinity, Infinity | NegInfinity, NegInfinity => Infinity
  | Infinity, NegInfinity | NegInfinity, Infinity => NegInfinity
  | Infinity, Finite q | Finite q, Infinity => inf_times true q
  | NegInfinity, Finite q | Finite q, NegInfinity => inf_times false q
  | Finite p, Finite q => Finite (p * q)%Qc
  end.

(** [Math.floor]: the greatest integer below a finite value; [NaN] and the
    infinities are returned as they are. *)
Definition floor (x : number) : number :=
  match x with
  | Finite q => of_Z (Qfloor q)
  | _ => x
  end.

(** A JavaScript value, as far as the components look at one: the primitives
    and arrays.  Two arrays are the same object when they have the same
    elements: the source never mutates an array, so object identity is only
    observable through [===], which the model answers by comparing contents. *)
#[local] Set Warnings "-register-all".
Inductive value :=
| VUndefined
| VNull
| VBool (b : bool)
| VNumber (n : number)
| VString (s : string)
| VArray (elems : list value).

(** Sameness of two values (identity of contents). *)
Fixpoint same (a b : value) {struct a} : bool :=
  match a, b with
  | VUndefined, VUndefined => true
  | VNull, VNull => true
  | VBool x, VBool y => bool_decide (x = y)
  | VNumber x, VNumber y => bool_decide (x = y)
  | VString x, VString y => bool_decide (x = y)
  | VArray xs, VArray ys =>
      (fix all2 (xs ys : list value) {struct xs} : bool :=
         match xs, ys with
         | [], [] => true
         | x :: xs', y :: ys' => same x y && all2 xs' ys'
         | _, _ => false
         end) xs ys
  | _, _ => false
  end.

(** Strict equality [a === b]. *)
Definition strictEq (a b : value) : bool :=
  match a, b with
  | VNumber x, VNumber y => num_eq x y
  | _, _ => same a b
  end.

(** [ToBoolean]: the falsy values are [undefined], [null], [false], zero,
    [NaN] and the empty string. *)
Definition truthy (v : value) : bool :=
  match v with
  | VUndefined | VNull => false
  | VBool b => b
  | VNumber NaN => false
  | VNumber (Finite q) => negb (bool_decide (q = 0%Qc))
  | VNumber _ => true
  | VString s => negb (bool_decide (s = ""%string))
  | VArray _ => true
  end.

Section Arrays.
Context {A : Type}.

(** [Array.prototype.indexOf] with a given element test: the index of the
    first hit counted from [i], or -1. *)
Fixpoint indexOfFrom (eq : A -> A -> bool) (i : Z) (l : list A) (x : A) : Z :=
  match l with
  | [] => -1
  | y :: l' => if eq y x then i else indexOfFrom eq (i + 1) l' x
  end.

(** One bound of [Array.prototype.slice], made relative to the length:
    a negative bound counts from the end, and both are clamped. *)
Definition sliceBound (len k : Z) : Z :=
  if k <? 0 then Z.max (len + k) 0 else Z.min k len.

(** [l.slice(start, finish)]. *)
Definition slice (l : list A) (start finish : Z) : list A :=
  let len := Z.of_nat (length l) in
  let k := sliceBound len start in
  let final := sliceBound len finish in
  take (Z.to_nat (final - k)) (drop (Z.to_nat k) l).

End Arrays.

Definition indexOf (l : list value) (x : value) : Z := indexOfFrom strictEq 0 l x.

End JS.

(** ** SelectList ([src/SelectList/js/SelectList.js]) *)

Module SelectList.

(** One entry of the [options] prop. *)
Record SelectOption := {
  opt_label : JS.value;
  opt_value : JS.value;
  opt_icon : JS.value;
  opt_disabled : JS.value
}.

(** The props object.  [options] and the [onChange] handler are typed; every
    other own property ([value], [multiple], [disabled], [invalid],
    [required], [aria-*], ...) is an entry of [attrs], so that a property
    that is absent and one that is present with value [undefined] differ, as
    they do for the [in] operator. *)
Record Props := {
  options : option (list SelectOption);
  onChange : bool;
  attrs : gmap string JS.value
}.

(** [props.name]: [undefined] for a property that is absent. *)
Definition prop (p : Props) (name : string) : JS.value :=
  default JS.VUndefined (attrs p !! name).

(** ['value' in this.props]. *)
Definition controlled (p : Props) : bool :=
  bool_decide (is_Some (attrs p !! "value"%string)).

(** [this.state]. *)
Record State := { value : JS.value }.

Definition constructor (p : Props) : State := {| value := prop p "value" |}.

(** [this.setState({value: v})], applied at once. *)
Definition setState (st : State) (v : JS.value) : State := {| value := v |}.

Definition componentWillReceiveProps (st : State) (p : Props) : State :=
  if JS.truthy (prop p "value") && negb (JS.strictEq (prop p "value") (value st))
  then setState st (prop p "value")
  else st.

(** [this.state.value || []], as the list that is then spread or searched.
    [None] when the value is truthy and not an array: a boolean or a number
    cannot be spread and has no [indexOf] (the source throws a TypeError),
    and a non-empty string, which JavaScript would search and spread
    character by character, is outside the model. *)
Definition selection (st : State) : option (list JS.value) :=
  if JS.truthy (value st) then
    match value st with
    | JS.VArray l => Some l
    | _ => None
    end
  else Some [].

Definition addSelection (st : State) (o : SelectOption) : option (list JS.value) :=
  l ← selection st;
  Some (l ++ [opt_value o]).

Definition removeSelection (st : State) (o : SelectOption) : option (list JS.value) :=
  l ← selection st;
  let index := JS.indexOf l (opt_value o) in
  Some (JS.slice l 0 index ++ JS.slice l (index + 1) (Z.of_nat (length l))).

(** [isSelected] returns the value of its expression: in multiple mode a
    falsy [state.value] itself, or the boolean [indexOf(...) >= 0]. *)
Definition isSelected (p : Props) (st : State) (o : SelectOption) : option JS.value :=
  if JS.truthy (prop p "multiple") then
    if JS.truthy (value st) then
      l ← selection st;
      Some (JS.VBool (0 <=? JS.indexOf l (opt_value o)))
    else Some (value st)
  else Some (JS.VBool (JS.strictEq (value st) (opt_value o))).

(** The first part of [handleSelect]: the value of its local [nextOptions]. *)
Definition nextOptions (p : Props) (st : State) (o : SelectOption) : option JS.value :=
  if JS.truthy (prop p "multiple") then
    sel ← isSelected p st o;
    if JS.truthy sel then JS.VArray <$> removeSelection st o
    else JS.VArray <$> addSelection st o
  else Some (opt_value o).

(** [handleSelect]: the state afterwards and the arguments of the calls made
    to [props.onChange]. *)
Definition handleSelect (p : Props) (st : State) (o : SelectOption)
  : option (State * list JS.value) :=
  next ← nextOptions p st o;
  let st' := if negb (controlled p) then setState st next else st in
  let calls := if onChange p then [next] else [] in
  Some (st', calls).

(** The rendered [ListItem] of one option; [onSelect] is [handleSelect]
    bound to that option. *)
Record ListItemElement := {
  key : nat;
  item_icon : JS.value;
  selected : JS.value;
  item_disabled : JS.value;
  onSelect : SelectOption;
  item_children : JS.value
}.

(** The rendered [List]: its attributes, the [onChange] handler it is handed
    with the rest of the props, and its children. *)
Record ListElement := {
  list_attrs : gmap string JS.value;
  list_onChange : bool;
  list_children : list ListItemElement
}.

(** [a || b]. *)
Definition or_else (a b : JS.value) : JS.value := if JS.truthy a then a else b.

Definition renderListOfOptions (p : Props) (st : State) (opts : list SelectOption)
  : option (list ListItemElement) :=
  mapM (fun io : nat * SelectOption =>
          let (index, o) := io in
          sel ← isSelected p st o;
          Some {| key := index;
                  item_icon := opt_icon o;
                  selected := sel;
                  item_disabled := or_else (prop p "disabled") (opt_disabled o);
                  onSelect := o;
                  item_children := opt_label o |})
       (imap pair opts).

(** A destructuring default [name = d]: [d] is used when the property reads
    as [undefined], whether it is absent or present with that value. *)
Definition withDefault (p : Props) (name : string) (d : JS.value) : JS.value :=
  match prop p name with
  | JS.VUndefined => d
  | v => v
  end.

(** The rest of the props after [options], [multiple], [disabled], [invalid]
    and [required] are taken out. *)
Definition otherProps (p : Props) : gmap string JS.value :=
  delete "multiple"%string (delete "disabled"%string
    (delete "invalid"%string (delete "required"%string (attrs p)))).

(** The attributes written before the spread of [otherProps]. *)
Definition ariaDefaults (p : Props) : gmap string JS.value :=
  <["aria-multiselectable"%string := withDefault p "multiple" (JS.VBool false)]>
  (<["aria-disabled"%string := withDefault p "disabled" (JS.VBool false)]>
  (<["aria-invalid"%string := withDefault p "invalid" (JS.VBool false)]>
  (<["aria-required"%string := withDefault p "required" (JS.VBool false)]> ∅))).

(** [render]: in the JSX the four [aria-*] attributes come first and
    [{...otherProps}] after them, so a property of the same name in
    [otherProps] wins; the children given in the JSX replace a [children]
    property. *)
Definition render (p : Props) (st : State) : option ListElement :=
  items ← renderListOfOptions p st (default [] (options p));
  Some {| list_attrs := delete "children"%string (otherProps p ∪ ariaDefaults p);
          list_onChange := onChange p;
          list_children := items |}.

(** Inputs for the examples: an uncontrolled multiple list with a change
    handler, the same list controlled by ["value"], a list that overrides
    [aria-disabled], and two options. *)
Definition multipleProps : Props :=
  {| options := None; onChange := true;
     attrs := {["multiple"%string := JS.VBool true]} |}.

Definition controlledProps : Props :=
  {| options := None; onChange := true;
     attrs := <["value"%string := JS.VArray [JS.VString "a"]]>
              {["multiple"%string := JS.VBool true]} |}.

Definition overridingProps : Props :=
  {| options := None; onChange := false;
     attrs := {["aria-disabled"%string := JS.VBool true]} |}.

Definition optionOf (v : JS.value) : SelectOption :=
  {| opt_label := v; opt_value := v;
     opt_icon := JS.VUndefined; opt_disabled := JS.VUndefined |}.

Definition optionB : SelectOption := optionOf (JS.VString "b").

Definition optionNaN : SelectOption := optionOf (JS.VNumber JS.NaN).

End SelectList.

(** ** TableView: default column widths *)

Module TableView.

(** The provider's [scale]. *)
Inductive Scale := medium | large.

Definition DEFAULT_HIDE_HEADER_CELL_WIDTH (scale : Scale) : Z :=
  match scale with
  | medium => 38
  | large => 46
  end.

Definition SELECTION_CELL_DEFAULT_WIDTH (scale : Scale) : Z :=
  match scale with
  | medium => 38
  | large => 48
  end.

(** The [props] of a column node that the calculators destructure; they are
    optional booleans, an absent one reads as false. *)
Record ColumnProps := {
  hideHeader : bool;
  isSelectionCell : bool;
  showDivider : bool
}.

(** [None] is [undefined]: the function falls off its end. *)
Definition getDefaultWidth (scale : Scale) (props : ColumnProps) : option Z :=
  if hideHeader props then
    let width := DEFAULT_HIDE_HEADER_CELL_WIDTH scale in
    Some (if showDivider props then width + 1 else width)
  else if isSelectionCell props then
    Some (SELECTION_CELL_DEFAULT_WIDTH scale)
  else None.

Definition getDefaultMinWidth (scale : Scale) (props : ColumnProps) : option Z :=
  if hideHeader props then
    let width := DEFAULT_HIDE_HEADER_CELL_WIDTH scale in
    Some (if showDivider props then width + 1 else width)
  else if isSelectionCell props then
    Some (SELECTION_CELL_DEFAULT_WIDTH scale)
  else Some 75.

End TableView.

(** ** TableVirtualizer: header and body scroll positions *)

Module TableVirtualizer.

(** A scrollable DOM element, as far as the virtualizer writes to it. *)
Record Element := {
  scrollLeft : JS.number;
  scrollTop : JS.number
}.

(** The two elements behind [headerRef.current] and [bodyRef.current]. *)
Record Dom := {
  headerRef : Element;
  bodyRef : Element
}.

(** A node's [type]: ['column'], or something else. *)
Inductive NodeType := type_column | type_item | type_cell | type_other.

#[global] Instance NodeType_eq_dec : EqDecision NodeType.
Proof. solve_decision. Defined.

Record Node := {
  key : string;
  type : NodeType;
  node_isSelectionCell : bool
}.

Record Collection := {
  getItem : string -> option Node;
  columns : list Node
}.

(** The options object handed to [virtualizer.scrollToItem]. *)
Record ScrollToItemOptions := {
  duration : Z;
  shouldScrollY : bool;
  offsetX : JS.number
}.

Inductive Modality := keyboard | pointer | virtual.

#[global] Instance Modality_eq_dec : EqDecision Modality.
Proof. solve_decision. Defined.

(** What the component calls and does not define: the virtualizer's own
    [scrollToItem], [scrollIntoViewport], the layout's column widths and the
    current interaction modality. *)
Class Host := {
  virtualizer_scrollToItem : string -> ScrollToItemOptions -> Dom -> Dom;
  scrollIntoViewport : Dom -> Dom;
  getColumnWidth : string -> JS.number;
  getInteractionModality : option Modality
}.

(** [headerRef.current.scrollLeft = v]. *)
Definition setHeaderScrollLeft (d : Dom) (v : JS.number) : Dom :=
  {| headerRef := {| scrollLeft := v; scrollTop := scrollTop (headerRef d) |};
     bodyRef := bodyRef d |}.

(** The body's scroll handler. *)
Definition onScroll (d : Dom) : Dom :=
  setHeaderScrollLeft d (scrollLeft (bodyRef d)).

(** The options [scrollToItem] builds for the key; [None] when the collection
    has no first column to read [props] from (a TypeError in the source). *)
Definition scrollOptions `{Host} (collection : Collection) (k : string)
  : option ScrollToItemOptions :=
  let item := getItem collection k in
  column ← head (columns collection);
  Some {| duration := 0;
          shouldScrollY :=
            match item with
            | Some n => negb (bool_decide (type n = type_column))
            | None => true
            end;
          offsetX := if node_isSelectionCell column
                     then getColumnWidth (key column)
                     else JS.of_Z 0 |}.

Definition scrollToItem `{Host} (collection : Collection) (k : string) (d : Dom)
  : option Dom :=
  opts ← scrollOptions collection k;
  let modality := getInteractionModality in
  let d1 := virtualizer_scrollToItem k opts d in
  let d2 := setHeaderScrollLeft d1 (scrollLeft (bodyRef d1)) in
  Some (if bool_decide (modality = Some keyboard) then scrollIntoViewport d2 else d2).

(** A host for the examples: its virtualizer scrolls the body to the given
    horizontal offset, [scrollIntoViewport] moves nothing, every column is
    38 wide and the user is on the keyboard. *)
Definition offsetHost : Host := {|
  virtualizer_scrollToItem := fun _ opts d =>
    {| headerRef := headerRef d;
       bodyRef := {| scrollLeft := offsetX opts; scrollTop := scrollTop (bodyRef d) |} |};
  scrollIntoViewport := fun d => d;
  getColumnWidth := fun _ => JS.of_Z 38;
  getInteractionModality := Some keyboard
|}.

(** A collection whose first column is the selection column. *)
Definition selectionFirst : Collection :=
  {| getItem := fun _ => None;
     columns := [ {| key := "select"; type := type_column; node_isSelectionCell := true |};
                  {| key := "name"; type := type_column; node_isSelectionCell := false |} ] |}.

Definition atOrigin : Dom :=
  {| headerRef := {| scrollLeft := JS.of_Z 0; scrollTop := JS.of_Z 0 |};
     bodyRef := {| scrollLeft := JS.of_Z 0; scrollTop := JS.of_Z 0 |} |}.

End TableVirtualizer.

(** ** useTableColumnResize: the column resizer hook *)

Module TableColumnResize.

(** The [TableColumnResizeState] the hook is given ([state] in the source).
    Its methods are not defined by the hook: [Table] is whatever that state
    holds, and a method that updates it returns the new [Table].
    [Widths] stands for the [Map<Key, ColumnSize>] that [onColumnResize]
    returns. *)
Class TableColumnResizeState := {
  Table : Type;
  Key : Type;
  Widths : Type;
  getColumnWidth : Table -> Key -> JS.number;
  getColumnMinWidth : Table -> Key -> JS.number;
  getColumnMaxWidth : Table -> Key -> JS.number;
  onColumnResize : Table -> Key -> JS.number -> Table * Widths;
  onColumnResizeStart : Table -> Key -> Table;
  onColumnResizeEnd : Table -> Table
}.

Inductive Direction := ltr | rtl.

Inductive PointerType := mouse | pen | touch | keyboard | virtual.

#[global] Instance Direction_eq_dec : EqDecision Direction.
Proof. solve_decision. Defined.

#[global] Instance PointerType_eq_dec : EqDecision PointerType.
Proof. solve_decision. Defined.

(** A move event of [useMove]. *)
Record MoveEvent := {
  deltaX : JS.number;
  deltaY : JS.number;
  pointerType : PointerType
}.

(** The attributes of the hidden range input that are numbers, with its
    [type] and orientation. *)
Record AriaProps := {
  aria_label : string;
  aria_orientation : string;
  type : string;
  min : JS.number;
  max : JS.number;
  value : JS.number
}.

Section Hook.
Context `{TableColumnResizeState}.

(** The hook's props: the column's key ([item.key]), the label, and whether
    each optional callback is supplied. *)
Record Props := {
  column : Key;
  label : string;
  isDisabled : bool;
  onResizeStart : bool;
  onResize : bool;
  onResizeEnd : bool
}.

(** A call made to one of the callbacks of the props, with its argument. *)
Inductive Call :=
| OnResizeStart (widths : Widths)
| OnResize (widths : Widths)
| OnResizeEnd (widths : Widths).

(** What persists between events: the resize state and the three refs. *)
Record Hook := {
  state : Table;
  isResizing : bool;
  lastSize : option Widths;
  columnResizeWidthRef : JS.number
}.

(** The refs as [useRef] creates them. *)
Definition mount (t : Table) : Hook :=
  {| state := t; isResizing := false; lastSize := None;
     columnResizeWidthRef := JS.of_Z 0 |}.

Definition startResize (p : Props) (h : Hook) (item : Key) : Hook * list Call :=
  if negb (isResizing h) then
    let '(t1, sizes) := onColumnResize (state h) item (getColumnWidth (state h) item) in
    let t2 := onColumnResizeStart t1 item in
    ({| state := t2; isResizing := true; lastSize := Some sizes;
        columnResizeWidthRef := columnResizeWidthRef h |},
     if onResizeStart p then [OnResizeStart sizes] else [])
  else
    ({| state := state h; isResizing := true; lastSize := lastSize h;
        columnResizeWidthRef := columnResizeWidthRef h |}, []).

Definition resize (p : Props) (h : Hook) (item : Key) (newWidth : JS.number)
  : Hook * list Call :=
  let '(t1, sizes) := onColumnResize (state h) item newWidth in
  ({| state := t1; isResizing := isResizing h; lastSize := Some sizes;
      columnResizeWidthRef := columnResizeWidthRef h |},
   if onResize p then [OnResize sizes] else []).

Definition endResize (p : Props) (h : Hook) (item : Key) : Hook * list Call :=
  let '(t1, last) :=
    match lastSize h with
    | None => onColumnResize (state h) item (getColumnWidth (state h) item)
    | Some sizes => (state h, sizes)
    end in
  let '(t2, calls) :=
    if isResizing h
    then (onColumnResizeEnd t1, if onResizeEnd p then [OnResizeEnd last] else [])
    else (t1, []) in
  ({| state := t2; isResizing := false; lastSize := None;
      columnResizeWidthRef := columnResizeWidthRef h |}, calls).

(** [columnResizeWidthRef.current = w]. *)
Definition setWidthRef (h : Hook) (w : JS.number) : Hook :=
  {| state := state h; isResizing := isResizing h; lastSize := lastSize h;
     columnResizeWidthRef := w |}.

Definition onMoveStart (p : Props) (h : Hook) : Hook * list Call :=
  startResize p (setWidthRef h (getColumnWidth (state h) (column p))) (column p).

(** The horizontal delta [onMove] ends up with: the two adjustments made to
    its local [deltaX] before the test [deltaX !== 0]. *)
Definition moveDelta (direction : Direction) (e : MoveEvent) : JS.number :=
  let deltaX :=
    if bool_decide (direction = rtl)
    then JS.num_mul (deltaX e) (JS.of_Z (-1))
    else deltaX e in
  if bool_decide (pointerType e = keyboard) then
    let deltaX :=
      if negb (JS.num_eq (deltaY e) (JS.of_Z 0)) && JS.num_eq deltaX (JS.of_Z 0)
      then JS.num_mul (deltaY e) (JS.of_Z (-1))
      else deltaX in
    JS.num_mul deltaX (JS.of_Z 10)
  else deltaX.

Definition onMove (p : Props) (direction : Direction) (h : Hook) (e : MoveEvent)
  : Hook * list Call :=
  let deltaX := moveDelta direction e in
  if negb (JS.num_eq deltaX (JS.of_Z 0)) then
    let h1 := setWidthRef h (JS.num_add (columnResizeWidthRef h) deltaX) in
    resize p h1 (column p) (columnResizeWidthRef h1)
  else (h, []).

Definition onMoveEnd (p : Props) (h : Hook) (e : MoveEvent) : Hook * list Call :=
  let h1 := setWidthRef h (JS.of_Z 0) in
  if bool_decide (pointerType e = mouse) then endResize p h1 (column p)
  else (h1, []).

(** The width [onChange] asks for; [parsed] is [parseFloat(e.target.value)]. *)
Definition nextValue (currentWidth parsed : JS.number) : JS.number :=
  if JS.num_gt parsed currentWidth
  then JS.num_add currentWidth (JS.of_Z 10)
  else JS.num_sub currentWidth (JS.of_Z 10).

Definition onChange (p : Props) (h : Hook) (parsed : JS.number) : Hook * list Call :=
  let currentWidth := getColumnWidth (state h) (column p) in
  resize p h (column p) (nextValue currentWidth parsed).

(** The [ariaProps] object; [aria-labelledby] and [aria-valuetext], which
    are strings built from [useId] and the message formatter, are left out. *)
Definition ariaProps (p : Props) (h : Hook) : AriaProps :=
  let min := JS.floor (getColumnMinWidth (state h) (column p)) in
  let max := JS.floor (getColumnMaxWidth (state h) (column p)) in
  let max := if JS.num_eq max JS.Infinity then JS.MAX_SAFE_INTEGER else max in
  let value := JS.floor (getColumnWidth (state h) (column p)) in
  {| aria_label := label p;
     aria_orientation := "horizontal";
     type := "range";
     min := min;
     max := max;
     value := value |}.

(** The three operations on the resize refs, as events. *)
Inductive Event :=
| StartResize
| Resize (newWidth : JS.number)
| EndResize.

Definition step (p : Props) (h : Hook) (e : Event) : Hook * list Call :=
  match e with
  | StartResize => startResize p h (column p)
  | Resize newWidth => resize p h (column p) newWidth
  | EndResize => endResize p h (column p)
  end.

(** A sequence of events, with the calls it makes in order. *)
Fixpoint run (p : Props) (h : Hook) (es : list Event) : Hook * list Call :=
  match es with
  | [] => (h, [])
  | e :: es' =>
      let '(h1, calls) := step p h e in
      let '(h2, calls') := run p h1 es' in
      (h2, calls ++ calls')
  end.

(** Reads a log of calls as episodes: [onResizeStart] opens one and is
    refused while one is open, [onResizeEnd] closes the open one and is
    refused when none is. *)
Fixpoint episodes (open : bool) (log : list Call) : bool :=
  match log with
  | [] => true
  | OnResizeStart _ :: log' => negb open && episodes true log'
  | OnResizeEnd _ :: log' => open && episodes false log'
  | OnResize _ :: log' => episodes open log'
  end.

Definition isStart (c : Call) : bool :=
  match c with OnResizeStart _ => true | _ => false end.

Definition isEnd (c : Call) : bool :=
  match c with OnResizeEnd _ => true | _ => false end.

End Hook.

(** A table of one column whose width is whatever was last asked for,
    between 75 and no upper bound. *)
Definition oneColumn : TableColumnResizeState := {|
  Table := JS.number;
  Key := unit;
  Widths := JS.number;
  getColumnWidth := fun w _ => w;
  getColumnMinWidth := fun _ _ => JS.of_Z 75;
  getColumnMaxWidth := fun _ _ => JS.Infinity;
  onColumnResize := fun _ _ w => (w, w);
  onColumnResizeStart := fun w _ => w;
  onColumnResizeEnd := fun w => w
|}.

(** Props for the examples, with all three callbacks supplied. *)
Definition resizerProps : @Props oneColumn :=
  {| column := (tt : @Key oneColumn); label := "Resizer"; isDisabled := false;
     onResizeStart := true; onResize := true; onResizeEnd := true |}.

Definition sampleEvents : list Event :=
  [StartResize; StartResize; Resize (JS.of_Z 120); EndResize; EndResize; StartResize].

End TableColumnResize.

(** ** useTableColumnResize: the handlers behind the returned props *)

Module ResizerHandlers.
Import TableColumnResize.

(** The press event of [usePress], as far as [onPressStart] and [onPress]
    read it. *)
Record PressEvent := {
  ctrlKey : bool;
  altKey : bool;
  metaKey : bool;
  shiftKey : bool;
  press_pointerType : PointerType
}.

(** What a handler reads that was fixed when the hook last rendered:
    [state.tableState.isKeyboardNavigationDisabled], whether
    [triggerRef?.current] and [ref.current] are set, whether
    [state.resizingColumn] is not null, and the locale's direction. *)
Record Render := {
  editModeEnabled : bool;
  triggerCurrent : bool;
  inputCurrent : bool;
  resizingColumnSet : bool;
  direction : Direction
}.

Section Handlers.
Context `{TableColumnResizeState}.

(** What a handler does besides updating the refs and the resize state. *)
Inductive Effect :=
| Callback (c : Call)
| SetKeyboardNavigationDisabled (b : bool)
| FocusSafely
| FocusWithoutScrolling
| PreventDefault
| ContinuePropagation
| MoveKeyDown.

(** The calls to the callbacks of the props among some effects. *)
Definition callbacks (effects : list Effect) : list Call :=
  omap (fun e => match e with Callback c => Some c | _ => None end) effects.

(** The [onKeyDown] given to [useKeyboard]. *)
Definition keyboard_onKeyDown (r : Render) (p : Props) (h : Hook) (key : string)
  : Hook * list Effect :=
  if editModeEnabled r then
    if triggerCurrent r &&
       (bool_decide (key = "Escape"%string) || bool_decide (key = "Enter"%string) ||
        bool_decide (key = " "%string) || bool_decide (key = "Tab"%string))
    then (h, [PreventDefault; FocusSafely])
    else (h, [])
  else
    let propagation :=
      if bool_decide (key = "ArrowRight"%string) || bool_decide (key = "ArrowLeft"%string)
      then [ContinuePropagation] else [] in
    if bool_decide (key = "Enter"%string) then
      let '(h1, calls) := startResize p h (column p) in
      (h1, propagation ++ (Callback <$> calls) ++ [SetKeyboardNavigationDisabled true])
    else (h, propagation).

(** The [onKeyDown] that replaces the one of [moveProps]: the key reaches
    [useMove] only in edit mode. *)
Definition onKeyDown (r : Render) : list Effect :=
  if editModeEnabled r then [MoveKeyDown] else [].

Definition focusInput (r : Render) : list Effect :=
  if inputCurrent r then [FocusWithoutScrolling] else [].

Definition onPressStart (r : Render) (p : Props) (h : Hook) (e : PressEvent)
  : Hook * list Effect :=
  if ctrlKey e || altKey e || metaKey e || shiftKey e ||
     bool_decide (press_pointerType e = keyboard)
  then (h, [])
  else if bool_decide (press_pointerType e = virtual) && resizingColumnSet r then
    let '(h1, calls) := endResize p h (column p) in
    (h1, (Callback <$> calls) ++ (if triggerCurrent r then [FocusSafely] else []))
  else (h, focusInput r).

Definition onPress (r : Render) (e : PressEvent) : list Effect :=
  if bool_decide (press_pointerType e = touch) then focusInput r
  else if negb (bool_decide (press_pointerType e = virtual)) &&
          negb (bool_decide (press_pointerType e = keyboard))
  then (if triggerCurrent r then [FocusSafely] else [])
  else [].

(** The input's [onBlur]. *)
Definition onBlur (p : Props) (h : Hook) : Hook * list Effect :=
  let '(h1, calls) := endResize p h (column p) in
  (h1, (Callback <$> calls) ++ [SetKeyboardNavigationDisabled false]).

(** One invocation of a handler of [resizerProps] or [inputProps]. *)
Inductive UserEvent :=
| KeyDown (key : string)
| MoveStart
| Move (e : MoveEvent)
| MoveEnd (e : MoveEvent)
| PressStart (e : PressEvent)
| Press (e : PressEvent)
| Change (parsed : JS.number)
| Blur.

Definition withCallbacks (r : Hook * list Call) : Hook * list Effect :=
  (fst r, Callback <$> snd r).

(** [KeyDown] runs the two key handlers that [mergeProps] chains. *)
Definition handle (p : Props) (h : Hook) (re : Render * UserEvent) : Hook * list Effect :=
  let (r, ev) := re in
  match ev with
  | KeyDown key =>
      let '(h1, effects) := keyboard_onKeyDown r p h key in
      (h1, effects ++ onKeyDown r)
  | MoveStart => withCallbacks (onMoveStart p h)
  | Move e => withCallbacks (onMove p (direction r) h e)
  | MoveEnd e => withCallbacks (onMoveEnd p h e)
  | PressStart e => onPressStart r p h e
  | Press e => (h, onPress r e)
  | Change parsed => withCallbacks (onChange p h parsed)
  | Blur => onBlur p h
  end.

Fixpoint runHandlers (p : Props) (h : Hook) (evs : list (Render * UserEvent))
  : Hook * list Effect :=
  match evs with
  | [] => (h, [])
  | ev :: evs' =>
      let '(h1, effects) := handle p h ev in
      let '(h2, effects') := runHandlers p h1 evs' in
      (h2, effects ++ effects')
  end.

(** Two hooks that differ at most in the tracked width. *)
Definition sameRefs (h h' : Hook) : Prop :=
  state h = state h' /\ isResizing h = isResizing h' /\ lastSize h = lastSize h'.

(** The widths a call hands to its callback. *)
Definition callWidths (c : Call) : Widths :=
  match c with
  | OnResizeStart w | OnResize w | OnResizeEnd w => w
  end.

(** Reads a log of calls, [prev] being the widths of the call before it:
    every [onResizeEnd] must be given the widths of the call just before. *)
Fixpoint reportsLast (prev : option Widths) (log : list Call) : Prop :=
  match log with
  | [] => True
  | c :: log' =>
      (isEnd c = true -> prev = Some (callWidths c)) /\
      reportsLast (Some (callWidths c)) log'
  end.

End Handlers.

(** A render in edit mode with both refs set, left to right. *)
Definition editing : Render :=
  {| editModeEnabled := true; triggerCurrent := true; inputCurrent := true;
     resizingColumnSet := true; direction := ltr |}.

(** A render outside edit mode. *)
Definition navigating : Render :=
  {| editModeEnabled := false; triggerCurrent := true; inputCurrent := true;
     resizingColumnSet := false; direction := ltr |}.

Definition keyboardStep (dx : Z) : MoveEvent :=
  {| deltaX := JS.of_Z dx; deltaY := JS.of_Z 0; pointerType := keyboard |}.

Definition mouseStep (dx : Z) : MoveEvent :=
  {| deltaX := JS.of_Z dx; deltaY := JS.of_Z 0; pointerType := mouse |}.

(** Enter on the resizer, two arrow presses as [useMove] reports them, then
    the input loses focus. *)
Definition keyboardSession : list (Render * @UserEvent) :=
  [ (navigating, KeyDown "Enter");
    (editing, MoveStart); (editing, Move (keyboardStep 1)); (editing, MoveEnd (keyboardStep 1));
    (editing, MoveStart); (editing, Move (keyboardStep 1)); (editing, MoveEnd (keyboardStep 1));
    (editing, Blur) ].

End ResizerHandlers.

(** ** TableView: the resizer's focus handler *)

Module TableViewScroll.
Import TableVirtualizer.

(** [bodyRef.current.scrollLeft = v]. *)
Definition setBodyScrollLeft (d : Dom) (v : JS.number) : Dom :=
  {| headerRef := headerRef d;
     bodyRef := {| scrollLeft := v; scrollTop := scrollTop (bodyRef d) |} |}.

(** [onFocusedResizer] of [TableView]: the body follows the header. *)
Definition onFocusedResizer (d : Dom) : Dom :=
  setBodyScrollLeft d (scrollLeft (headerRef d)).

End TableViewScroll.

(** ** The controlled resizing stories *)

Module ControlledTableResizing.

(** A column description of the stories; [width] is [undefined] or [null]
    for a column whose width is not controlled. *)
Record ColumnData := {
  name : string;
  uid : string;
  width : JS.value
}.

(** [columns.filter(col => col.width)]. *)
Definition controlledColumns (columns : list ColumnData) : list ColumnData :=
  List.filter (fun col => JS.truthy (width col)) columns.

(** [new Map(entries)]: the entries are set in order, so the last entry of a
    key is the one that stays. *)
Definition newMap (entries : list (string * JS.value)) : gmap string JS.value :=
  fold_left (fun m kv => <[kv.1 := kv.2]> m) entries ∅.

(** The initial state of [widths]. *)
Definition initialWidths (columns : list ColumnData) : gmap string JS.value :=
  newMap ((fun col => (uid col, width col)) <$> controlledColumns columns).

(** [controlledKeys] of [setWidths]. *)
Definition controlledKeys (columns : list ColumnData) : gset string :=
  list_to_set (uid <$> controlledColumns columns).

(** [setWidths]: the map handed to [_setWidths], and the argument of the
    call to [onResize] when there is one. *)
Definition setWidths (columns : list ColumnData) (onResize : bool)
    (vals : gmap string JS.value)
  : gmap string JS.value * list (gmap string JS.value) :=
  let newVals := filter (fun kv => kv.1 ∈ controlledKeys columns) vals in
  (newVals, if onResize then [vals] else []).

(** The columns of [TableWithSomeResizingFRsControlled]: three controlled
    widths and two columns without one. *)
Definition columnsSomeFR : list ColumnData :=
  [ {| name := "Name"; uid := "name"; width := JS.VString "1fr" |};
    {| name := "Type"; uid := "type"; width := JS.VString "1fr" |};
    {| name := "Height"; uid := "height"; width := JS.VUndefined |};
    {| name := "Weight"; uid := "weight"; width := JS.VUndefined |};
    {| name := "Level"; uid := "level"; width := JS.VString "5fr" |} ].

End ControlledTableResizing.

(** * Properties *)

(** ** Numbers, [indexOf] and [slice] *)

Module JSFacts.
Import JS.

(** [===] on numbers is reflexive away from [NaN]. *)
Lemma num_eq_refl (x : number) : x <> NaN -> num_eq x x = true.
Proof. destruct x; simpl; try congruence; intros _. by apply bool_decide_eq_true_2. Qed.

(** No number is below itself. *)
Lemma num_lt_irrefl (x : number) : num_lt x x = false.
Proof.
  destruct x; simpl; try reflexivity.
  apply bool_decide_eq_false_2. apply (irreflexivity Qclt).
Qed.

(** The floor of a number is [Infinity] exactly when the number is. *)
Lemma floor_is_Infinity (x : number) : num_eq (floor x) Infinity = (bool_decide (x = Infinity)).
Proof. by destruct x. Qed.

Lemma same_refl (v : value) : same v v = true.
Proof.
  revert v. fix IH 1.
  intros [| |b|n|s|l]; simpl; try reflexivity; try (by apply bool_decide_eq_true_2).
  induction l as [|x l IHl]; simpl; [reflexivity|].
  rewrite IH. exact IHl.
Qed.

(** Every value is strictly equal to itself, except [NaN]. *)
Lemma strictEq_self (v : value) : strictEq v v = true <-> v <> VNumber NaN.
Proof.
  destruct v as [| |b|n|s|l]; try (split; [discriminate|intros _; apply same_refl]).
  simpl. split.
  - intros E [= ->]. discriminate.
  - intros Hn. apply num_eq_refl. congruence.
Qed.

Section IndexOf.
Context {A : Type} (eq : A -> A -> bool).

(** A search that reports -1 met no matching element. *)
Lemma indexOfFrom_miss (i : Z) (l : list A) (x : A) :
  0 <= i -> indexOfFrom eq i l x = -1 -> Forall (fun y => eq y x = false) l.
Proof.
  revert i. induction l as [|y l IH]; intros i Hi; simpl; [constructor|].
  destruct (eq y x) eqn:E; [lia|].
  intros Hm. constructor; [done|]. apply (IH (i + 1)); [lia|done].
Qed.

(** An element appended to a list that does not hold it is found at the
    list's length, provided the test finds it equal to itself. *)
Lemma indexOfFrom_app_fresh (i : Z) (l : list A) (x : A) :
  Forall (fun y => eq y x = false) l -> eq x x = true ->
  indexOfFrom eq i (l ++ [x]) x = i + Z.of_nat (length l).
Proof.
  intros Hall Hx. revert i. induction Hall as [|y l Hy _ IH]; intros i; simpl.
  - rewrite Hx. lia.
  - rewrite Hy, IH. lia.
Qed.

Lemma slice_prefix (l : list A) (x : A) :
  slice (l ++ [x]) 0 (Z.of_nat (length l)) = l.
Proof.
  unfold slice, sliceBound. rewrite length_app. simpl.
  replace (0 <? 0) with false by reflexivity.
  destruct (Z.ltb_spec (Z.of_nat (length l)) 0) as [?|_]; [lia|].
  rewrite Z.min_l by lia. rewrite Z.min_l by lia.
  rewrite Z.sub_0_r, Nat2Z.id, Z2Nat.inj_0, drop_0. apply take_app_length.
Qed.

Lemma slice_past_last (l : list A) (x : A) :
  slice (l ++ [x]) (Z.of_nat (length l) + 1) (Z.of_nat (length (l ++ [x]))) = [].
Proof.
  unfold slice, sliceBound. rewrite length_app. simpl.
  destruct (Z.ltb_spec (Z.of_nat (length l) + 1) 0) as [?|_]; [lia|].
  destruct (Z.ltb_spec (Z.of_nat (length l + 1)) 0) as [?|_]; [lia|].
  rewrite !Z.min_l by lia.
  replace (Z.of_nat (length l + 1) - (Z.of_nat (length l) + 1)) with 0 by lia.
  reflexivity.
Qed.

End IndexOf.

End JSFacts.

(** ** SelectList *)

Module SelectListFacts.
Import JS SelectList JSFacts.

(** *** Selection toggling *)

Lemma selection_array (l : list JS.value) :
  selection {| value := VArray l |} = Some l.
Proof. reflexivity. Qed.

Lemma isSelected_multiple (p : Props) (l : list JS.value) (o : SelectOption) :
  truthy (prop p "multiple") = true ->
  isSelected p {| value := VArray l |} o = Some (VBool (0 <=? indexOf l (opt_value o))).
Proof. intros Hm. unfold isSelected. rewrite Hm. reflexivity. Qed.

Lemma nextOptions_add (p : Props) (l : list JS.value) (o : SelectOption) :
  truthy (prop p "multiple") = true ->
  indexOf l (opt_value o) = -1 ->
  nextOptions p {| value := VArray l |} o = Some (VArray (l ++ [opt_value o])).
Proof.
  intros Hm Hi. unfold nextOptions. rewrite Hm, (isSelected_multiple _ _ _ Hm), Hi.
  reflexivity.
Qed.

Lemma removeSelection_last (l : list JS.value) (o : SelectOption) :
  indexOf l (opt_value o) = -1 ->
  strictEq (opt_value o) (opt_value o) = true ->
  removeSelection {| value := VArray (l ++ [opt_value o]) |} o = Some l.
Proof.
  intros Hi Hx. unfold removeSelection. rewrite selection_array. simpl.
  assert (indexOf (l ++ [opt_value o]) (opt_value o) = Z.of_nat (length l)) as ->.
  { unfold indexOf. rewrite indexOfFrom_app_fresh; [lia| |done].
    by apply (indexOfFrom_miss _ 0). }
  by rewrite slice_prefix, slice_past_last, app_nil_r.
Qed.

Lemma nextOptions_remove (p : Props) (l : list JS.value) (o : SelectOption) :
  truthy (prop p "multiple") = true ->
  indexOf l (opt_value o) = -1 ->
  strictEq (opt_value o) (opt_value o) = true ->
  nextOptions p {| value := VArray (l ++ [opt_value o]) |} o = Some (VArray l).
Proof.
  intros Hm Hi Hx. unfold nextOptions.
  rewrite Hm, (isSelected_multiple _ _ _ Hm).
  unfold indexOf. rewrite indexOfFrom_app_fresh; [| by apply (indexOfFrom_miss _ 0) | done].
  destruct (Z.leb_spec 0 (0 + Z.of_nat (length l))) as [_|?]; [|lia].
  rewrite removeSelection_last by done. reflexivity.
Qed.

Lemma handleSelect_uncontrolled (p : Props) (st : State) (o : SelectOption) (next : JS.value) :
  controlled p = false ->
  nextOptions p st o = Some next ->
  handleSelect p st o = Some ({| value := next |}, if onChange p then [next] else []).
Proof. intros Hc Hn. unfold handleSelect. rewrite Hn, Hc. reflexivity. Qed.

(** C8 (as amended). In multiple mode, for a selection list [v] and an option [x]
    whose value does not occur in [v] and is strictly equal to itself (any
    value but [NaN]): [handleSelect] on the selection [v] computes [v] with
    the value of [x] appended, [handleSelect] on that selection computes [v]
    again, and in uncontrolled mode two successive calls of [handleSelect]
    for [x] store first the longer list and then [v]. *)
Theorem C8_toggle_round_trip (p : Props) (v : list JS.value) (x : SelectOption) :
  truthy (prop p "multiple") = true ->
  indexOf v (opt_value x) = -1 ->
  strictEq (opt_value x) (opt_value x) = true ->
  let v' := v ++ [opt_value x] in
  nextOptions p {| value := VArray v |} x = Some (VArray v') /\
  nextOptions p {| value := VArray v' |} x = Some (VArray v) /\
  (controlled p = false ->
   exists calls1 calls2,
     handleSelect p {| value := VArray v |} x = Some ({| value := VArray v' |}, calls1) /\
     handleSelect p {| value := VArray v' |} x = Some ({| value := VArray v |}, calls2)).
Proof.
  intros Hm Hi Hx v'.
  pose proof (nextOptions_add p v x Hm Hi) as Hadd.
  pose proof (nextOptions_remove p v x Hm Hi Hx) as Hrem.
  split; [exact Hadd|]. split; [exact Hrem|].
  intros Hc. eexists _, _. split.
  - apply handleSelect_uncontrolled; [exact Hc|exact Hadd].
  - apply handleSelect_uncontrolled; [exact Hc|exact Hrem].
Qed.

Lemma C8_toggle_round_trip_witness :
  truthy (prop multipleProps "multiple") = true /\
  indexOf [VString "a"] (opt_value optionB) = -1 /\
  strictEq (opt_value optionB) (opt_value optionB) = true /\
  controlled multipleProps = false /\
  let v' := [VString "a"] ++ [opt_value optionB] in
  nextOptions multipleProps {| value := VArray [VString "a"] |} optionB = Some (VArray v') /\
  nextOptions multipleProps {| value := VArray v' |} optionB = Some (VArray [VString "a"]) /\
  (controlled multipleProps = false ->
   exists calls1 calls2,
     handleSelect multipleProps {| value := VArray [VString "a"] |} optionB
       = Some ({| value := VArray v' |}, calls1) /\
     handleSelect multipleProps {| value := VArray v' |} optionB
       = Some ({| value := VArray [VString "a"] |}, calls2)).
Proof.
  split; [reflexivity|]. split; [reflexivity|]. split; [reflexivity|].
  split; [vm_compute; reflexivity|].
  apply (C8_toggle_round_trip multipleProps [VString "a"] optionB); reflexivity.
Defined.

(** C8 as stated fails: the value [NaN] does not occur in the empty selection,
    yet two calls of [handleSelect] for it leave [[NaN, NaN]] selected, because
    [indexOf] never finds [NaN] and the second call appends again. *)
Lemma C8_counterexample_NaN :
  truthy (prop multipleProps "multiple") = true /\
  controlled multipleProps = false /\
  indexOf [] (opt_value optionNaN) = -1 /\
  handleSelect multipleProps {| value := VArray [] |} optionNaN
    = Some ({| value := VArray [VNumber NaN] |}, [VArray [VNumber NaN]]) /\
  handleSelect multipleProps {| value := VArray [VNumber NaN] |} optionNaN
    = Some ({| value := VArray [VNumber NaN; VNumber NaN] |},
            [VArray [VNumber NaN; VNumber NaN]]) /\
  VArray [VNumber NaN; VNumber NaN] <> VArray [].
Proof. repeat split; try (vm_compute; reflexivity). discriminate. Qed.

(** *** Controlled and uncontrolled state *)

(** C9. Whatever [handleSelect] returns, it computed [nextOptions] and passed
    it to [onChange] exactly when a handler is supplied; with a [value] prop
    present the state is the one it started from, and the state holds the new
    value only in uncontrolled mode. *)
Theorem C9_controlled_state_untouched
  (p : Props) (st st' : State) (o : SelectOption) (calls : list JS.value) :
  handleSelect p st o = Some (st', calls) ->
  exists next,
    nextOptions p st o = Some next /\
    calls = (if onChange p then [next] else []) /\
    (controlled p = true -> st' = st) /\
    (controlled p = false -> value st' = next) /\
    (st' <> st -> controlled p = false).
Proof.
  unfold handleSelect. destruct (nextOptions p st o) as [next|]; [|discriminate].
  simpl. intros [= <- <-]. exists next.
  destruct (controlled p); simpl; repeat split; try done.
Qed.

Lemma C9_controlled_state_untouched_witness :
  handleSelect controlledProps {| value := VArray [VString "a"] |} optionB
    = Some ({| value := VArray [VString "a"] |}, [VArray [VString "a"; VString "b"]]) /\
  exists next,
    nextOptions controlledProps {| value := VArray [VString "a"] |} optionB = Some next /\
    [VArray [VString "a"; VString "b"]] = (if onChange controlledProps then [next] else []) /\
    (controlled controlledProps = true ->
     {| value := VArray [VString "a"] |} = {| value := VArray [VString "a"] |}) /\
    (controlled controlledProps = false -> value {| value := VArray [VString "a"] |} = next) /\
    ({| value := VArray [VString "a"] |} <> {| value := VArray [VString "a"] |} ->
     controlled controlledProps = false).
Proof.
  assert (handleSelect controlledProps {| value := VArray [VString "a"] |} optionB
    = Some ({| value := VArray [VString "a"] |}, [VArray [VString "a"; VString "b"]])) as E
    by (vm_compute; reflexivity).
  split; [exact E|].
  exact (C9_controlled_state_untouched _ _ _ _ _ E).
Defined.

(** C10. [componentWillReceiveProps] keeps the state when the incoming
    [value] is falsy ([undefined] and [null] among them), changes it only
    when the incoming value is truthy and not strictly equal to the stored
    one, and then stores the incoming value. *)
Theorem C10_falsy_value_keeps_state (st : State) (p : Props) :
  let v := prop p "value" in
  (truthy v = false -> componentWillReceiveProps st p = st) /\
  (v = VUndefined \/ v = VNull -> componentWillReceiveProps st p = st) /\
  (componentWillReceiveProps st p <> st ->
   truthy v = true /\ strictEq v (value st) = false) /\
  (truthy v = true -> strictEq v (value st) = false ->
   value (componentWillReceiveProps st p) = v).
Proof.
  intros v. unfold componentWillReceiveProps. fold v.
  destruct (truthy v) eqn:Ht, (strictEq v (value st)) eqn:Hs; simpl;
    repeat split; try done; intros [-> | ->]; discriminate.
Qed.

(** A parent that passes [null] does not clear a stored selection. *)
Example null_value_keeps_selection :
  componentWillReceiveProps {| value := VArray [VString "a"] |}
    {| options := None; onChange := false; attrs := {["value"%string := VNull]} |}
  = {| value := VArray [VString "a"] |}.
Proof. vm_compute. reflexivity. Qed.

(** *** Rendered attributes *)

Lemma otherProps_lookup (p : Props) (name : string) :
  name <> "multiple"%string -> name <> "disabled"%string ->
  name <> "invalid"%string -> name <> "required"%string ->
  otherProps p !! name = attrs p !! name.
Proof.
  intros. unfold otherProps. by rewrite !lookup_delete_ne.
Qed.

Lemma list_attrs_lookup (p : Props) (aria : string) (d : JS.value) :
  aria <> "multiple"%string -> aria <> "disabled"%string ->
  aria <> "invalid"%string -> aria <> "required"%string ->
  aria <> "children"%string ->
  ariaDefaults p !! aria = Some d ->
  delete "children"%string (otherProps p ∪ ariaDefaults p) !! aria
    = Some (default d (attrs p !! aria)).
Proof.
  intros ? ? ? ? ? Hd. rewrite lookup_delete_ne by done.
  rewrite lookup_union, otherProps_lookup, Hd by done.
  by destruct (attrs p !! aria).
Qed.

(** C7 (as amended). Each of the four [aria-*] attributes of the rendered [List] is
    the props' own entry of that name when the props carry one, and otherwise
    the matching prop, [false] standing in for a prop that is [undefined]. *)
Theorem C7_aria_attributes (p : Props) (st : State) (el : ListElement) :
  render p st = Some el ->
  list_attrs el !! "aria-multiselectable"%string
    = Some (default (withDefault p "multiple" (VBool false))
                    (attrs p !! "aria-multiselectable"%string)) /\
  list_attrs el !! "aria-disabled"%string
    = Some (default (withDefault p "disabled" (VBool false))
                    (attrs p !! "aria-disabled"%string)) /\
  list_attrs el !! "aria-invalid"%string
    = Some (default (withDefault p "invalid" (VBool false))
                    (attrs p !! "aria-invalid"%string)) /\
  list_attrs el !! "aria-required"%string
    = Some (default (withDefault p "required" (VBool false))
                    (attrs p !! "aria-required"%string)).
Proof.
  unfold render. destruct (renderListOfOptions _ _ _) as [items|]; [|discriminate].
  simpl. intros [= <-]. simpl.
  repeat split; apply list_attrs_lookup; done.
Qed.

Lemma C7_aria_attributes_witness :
  let p := overridingProps in
  let st := constructor overridingProps in
  let el := {| list_attrs := <["aria-multiselectable"%string := VBool false]>
                             (<["aria-disabled"%string := VBool true]>
                             (<["aria-invalid"%string := VBool false]>
                             (<["aria-required"%string := VBool false]> ∅)));
               list_onChange := false; list_children := [] |} in
  render p st = Some el /\
  (list_attrs el !! "aria-multiselectable"%string
    = Some (default (withDefault p "multiple" (VBool false))
                    (attrs p !! "aria-multiselectable"%string)) /\
  list_attrs el !! "aria-disabled"%string
    = Some (default (withDefault p "disabled" (VBool false))
                    (attrs p !! "aria-disabled"%string)) /\
  list_attrs el !! "aria-invalid"%string
    = Some (default (withDefault p "invalid" (VBool false))
                    (attrs p !! "aria-invalid"%string)) /\
  list_attrs el !! "aria-required"%string
    = Some (default (withDefault p "required" (VBool false))
                    (attrs p !! "aria-required"%string))).
Proof.
  intros p st el.
  assert (render p st = Some el) as E by (vm_compute; reflexivity).
  split; [exact E|]. exact (C7_aria_attributes p st el E).
Defined.

(** C7 as stated fails: with [disabled] omitted (so [false] by default) and
    an [aria-disabled] of [true] among the props, the rendered [List] has
    [aria-disabled] equal to [true]. *)
Lemma C7_counterexample_override :
  exists el,
    render overridingProps (constructor overridingProps) = Some el /\
    attrs overridingProps !! "disabled"%string = None /\
    withDefault overridingProps "disabled" (VBool false) = VBool false /\
    list_attrs el !! "aria-disabled"%string = Some (VBool true).
Proof. eexists. repeat split. Qed.

(** [render] returns an element whenever [isSelected] can answer: outside
    multiple mode, and in multiple mode when the stored value is falsy or an
    array. *)
Lemma render_is_Some (p : Props) (st : State) :
  truthy (prop p "multiple") = false \/ is_Some (selection st) ->
  is_Some (render p st).
Proof.
  intros Hok. unfold render.
  assert (is_Some (renderListOfOptions p st (default [] (options p)))) as [items ->].
  { unfold renderListOfOptions. apply mapM_is_Some, Forall_forall.
    intros [index o] _. unfold compose. cbn beta iota.
    assert (is_Some (isSelected p st o)) as [sel ->]; [|by eexists].
    unfold isSelected. destruct Hok as [-> | [l Hl]]; [by eexists|].
    destruct (truthy (prop p "multiple")); [|by eexists].
    destruct (truthy (value st)); [|by eexists].
    rewrite Hl. by eexists. }
  by eexists.
Qed.

End SelectListFacts.

(** ** TableView and TableVirtualizer *)

Module TableViewFacts.
Import TableView.

(** C6. Both calculators return the hidden-header width of the scale, plus
    one with a divider, for a column that hides its header; otherwise the
    selection-cell width of the scale for a selection cell; otherwise
    [getDefaultWidth] returns [undefined] and [getDefaultMinWidth] 75. *)
Theorem C6_default_widths (scale : Scale) (props : ColumnProps) :
  (hideHeader props = true ->
   let width := DEFAULT_HIDE_HEADER_CELL_WIDTH scale + (if showDivider props then 1 else 0) in
   getDefaultWidth scale props = Some width /\
   getDefaultMinWidth scale props = Some width) /\
  (hideHeader props = false -> isSelectionCell props = true ->
   getDefaultWidth scale props = Some (SELECTION_CELL_DEFAULT_WIDTH scale) /\
   getDefaultMinWidth scale props = Some (SELECTION_CELL_DEFAULT_WIDTH scale)) /\
  (hideHeader props = false -> isSelectionCell props = false ->
   getDefaultWidth scale props = None /\
   getDefaultMinWidth scale props = Some 75).
Proof.
  unfold getDefaultWidth, getDefaultMinWidth.
  destruct props as [hide sel divider]; simpl.
  split; [|split].
  - intros ->. destruct divider; split; f_equal; lia.
  - intros -> ->. by split.
  - intros -> ->. by split.
Qed.

(** The two tables. *)
Example width_tables :
  DEFAULT_HIDE_HEADER_CELL_WIDTH medium = 38 /\ DEFAULT_HIDE_HEADER_CELL_WIDTH large = 46 /\
  SELECTION_CELL_DEFAULT_WIDTH medium = 38 /\ SELECTION_CELL_DEFAULT_WIDTH large = 48.
Proof. by repeat split. Qed.

Example hidden_header_with_divider_large :
  getDefaultWidth large {| hideHeader := true; isSelectionCell := true; showDivider := true |}
    = Some 47.
Proof. reflexivity. Qed.

End TableViewFacts.

Module TableVirtualizerFacts.
Import JS TableVirtualizer.

Lemma scrollOptions_is_Some `{Host} (collection : Collection) (k : string) :
  columns collection <> [] -> is_Some (scrollOptions collection k).
Proof.
  intros Hne. unfold scrollOptions.
  destruct (columns collection) as [|c cs]; [done|]. by eexists.
Qed.

(** C2. The body's scroll handler makes the header's [scrollLeft] the body's
    and touches nothing else; [scrollToItem] runs the virtualizer's
    [scrollToItem], then that same assignment, and only then (on the
    keyboard) [scrollIntoViewport]. *)
Theorem C2_header_follows_body `{Host} :
  (forall d : Dom,
     scrollLeft (headerRef (onScroll d)) = scrollLeft (bodyRef d) /\
     bodyRef (onScroll d) = bodyRef d /\
     scrollTop (headerRef (onScroll d)) = scrollTop (headerRef d)) /\
  (forall (collection : Collection) (k : string) (d : Dom) (opts : ScrollToItemOptions),
     scrollOptions collection k = Some opts ->
     let d1 := virtualizer_scrollToItem k opts d in
     scrollToItem collection k d
       = Some (if bool_decide (getInteractionModality = Some keyboard)
               then scrollIntoViewport (onScroll d1)
               else onScroll d1)) /\
  (forall (collection : Collection) (k : string) (d d' : Dom),
     getInteractionModality <> Some keyboard ->
     scrollToItem collection k d = Some d' ->
     scrollLeft (headerRef d') = scrollLeft (bodyRef d')).
Proof.
  split; [|split].
  - intros d. by repeat split.
  - intros collection k d opts Ho d1. unfold scrollToItem. rewrite Ho. reflexivity.
  - intros collection k d d' Hm. unfold scrollToItem.
    destruct (scrollOptions collection k) as [opts|]; [|discriminate].
    simpl. rewrite bool_decide_eq_false_2 by done. by intros [= <-].
Qed.

Example scrollToItem_offsets_by_selection_column :
  scrollToItem (H := offsetHost) selectionFirst "name" atOrigin
  = Some {| headerRef := {| scrollLeft := of_Z 38; scrollTop := of_Z 0 |};
            bodyRef := {| scrollLeft := of_Z 38; scrollTop := of_Z 0 |} |}.
Proof. reflexivity. Qed.

End TableVirtualizerFacts.

(** ** useTableColumnResize *)

Module TableColumnResizeFacts.
Import JS TableColumnResize JSFacts.

Lemma num_lt_NaN_r (x : number) : num_lt x NaN = false.
Proof. by destruct x. Qed.

(** Multiplying by -1 keeps zero zero and nothing else. *)
Lemma negated_is_zero (x : number) :
  num_eq (num_mul x (of_Z (-1))) (of_Z 0) = num_eq x (of_Z 0).
Proof.
  destruct x as [| | |q]; try reflexivity. simpl.
  apply bool_decide_ext. change (Q2Qc (inject_Z 0)) with 0%Qc. split.
  - intros Hq. apply Qcmult_integral in Hq as [Hq|Hq]; [done|discriminate].
  - intros ->. apply Qcmult_0_l.
Qed.

Section Hook.
Context `{TableColumnResizeState}.

(** *** The resize episodes *)

Lemma startResize_calls (p : Props) (h : Hook) (item : Key) :
  snd (startResize p h item) =
    if isResizing h then []
    else if onResizeStart p
         then [OnResizeStart (snd (onColumnResize (state h) item (getColumnWidth (state h) item)))]
         else [].
Proof.
  unfold startResize. destruct (isResizing h); [reflexivity|]. simpl.
  by destruct (onColumnResize _ _ _).
Qed.

Lemma startResize_isResizing (p : Props) (h : Hook) (item : Key) :
  isResizing (fst (startResize p h item)) = true.
Proof.
  unfold startResize. destruct (isResizing h); [reflexivity|]. simpl.
  by destruct (onColumnResize _ _ _).
Qed.

Lemma resize_calls (p : Props) (h : Hook) (item : Key) (w : number) :
  snd (resize p h item w) =
    if onResize p then [OnResize (snd (onColumnResize (state h) item w))] else [].
Proof. unfold resize. by destruct (onColumnResize _ _ _). Qed.

Lemma resize_isResizing (p : Props) (h : Hook) (item : Key) (w : number) :
  isResizing (fst (resize p h item w)) = isResizing h.
Proof. unfold resize. by destruct (onColumnResize _ _ _). Qed.

Lemma endResize_refs (p : Props) (h : Hook) (item : Key) :
  isResizing (fst (endResize p h item)) = false /\
  lastSize (fst (endResize p h item)) = None.
Proof.
  unfold endResize.
  destruct (lastSize h); [|destruct (onColumnResize _ _ _)];
    by destruct (isResizing h).
Qed.

Lemma endResize_calls (p : Props) (h : Hook) (item : Key) :
  snd (endResize p h item) = [] \/
  exists w, snd (endResize p h item) = [OnResizeEnd w] /\
            isResizing h = true /\ onResizeEnd p = true.
Proof.
  unfold endResize.
  destruct (lastSize h); [|destruct (onColumnResize _ _ _)];
    destruct (isResizing h), (onResizeEnd p); simpl; eauto.
Qed.

Lemma endResize_calls_resizing (p : Props) (h : Hook) (item : Key) :
  isResizing h = true -> onResizeEnd p = true ->
  exists w, snd (endResize p h item) = [OnResizeEnd w].
Proof.
  intros Hr He. unfold endResize. rewrite Hr, He.
  destruct (lastSize h); [|destruct (onColumnResize _ _ _)]; simpl; eauto.
Qed.

(** Reading the calls of one event moves the reader from the flag before the
    event to the flag after it. *)
Lemma step_episodes (p : Props) (h : Hook) (e : Event) (rest : list Call) :
  onResizeStart p = true -> onResizeEnd p = true ->
  episodes (isResizing h) (snd (step p h e) ++ rest)
    = episodes (isResizing (fst (step p h e))) rest.
Proof.
  intros Hs He. destruct e as [|w|]; simpl.
  - rewrite startResize_calls, startResize_isResizing, Hs.
    by destruct (isResizing h).
  - rewrite resize_calls, resize_isResizing. by destruct (onResize p).
  - destruct (endResize_refs p h (column p)) as [-> _].
    destruct (isResizing h) eqn:Hr.
    + destruct (endResize_calls_resizing p h (column p) Hr He) as [w ->]. reflexivity.
    + destruct (endResize_calls p h (column p)) as [-> | (w & _ & ? & _)];
        [reflexivity|congruence].
Qed.

Lemma run_cons (p : Props) (h : Hook) (e : Event) (es : list Event) :
  run p h (e :: es)
    = (fst (run p (fst (step p h e)) es),
       snd (step p h e) ++ snd (run p (fst (step p h e)) es)).
Proof.
  simpl. destruct (step p h e) as [h1 calls]. simpl.
  by destruct (run p h1 es).
Qed.

Lemma run_episodes (p : Props) (es : list Event) (h : Hook) :
  onResizeStart p = true -> onResizeEnd p = true ->
  episodes (isResizing h) (snd (run p h es)) = true.
Proof.
  intros Hs He. revert h. induction es as [|e es IH]; intros h; [reflexivity|].
  rewrite run_cons. simpl. rewrite step_episodes by done. apply IH.
Qed.

(** In every prefix of a log that reads as episodes, the calls of
    [onResizeStart] (one more when the reader starts inside an episode) are as
    many as the calls of [onResizeEnd], or one more. *)
Lemma episodes_prefix_balance (log : list Call) (open : bool) (n : nat) :
  episodes open log = true ->
  let starts := (length (List.filter isStart (take n log)) + (if open then 1 else 0))%nat in
  let ends := length (List.filter isEnd (take n log)) in
  (ends <= starts <= ends + 1)%nat.
Proof.
  revert open n. induction log as [|c log IH]; intros open n Hl.
  - rewrite take_nil. simpl. destruct open; lia.
  - destruct n as [|n]; [simpl; destruct open; lia|].
    rewrite firstn_cons. destruct c as [w|w|w]; simpl in Hl |- *.
    + apply andb_true_iff in Hl as [Ho Hl]. destruct open; [discriminate|].
      specialize (IH true n Hl). simpl in IH. lia.
    + exact (IH open n Hl).
    + apply andb_true_iff in Hl as [Ho Hl]. destruct open; [|discriminate].
      specialize (IH false n Hl). simpl in IH. lia.
Qed.

(** C1. With both callbacks supplied, the calls made by any sequence of
    events after mounting read as episodes: no [onResizeStart] while an
    episode is open and no [onResizeEnd] while none is, so that in every
    prefix of the calls there are as many [onResizeStart] as [onResizeEnd],
    or one more.  [startResize] calls [onResizeStart] once when no resize is
    in progress and not at all otherwise; [endResize] calls [onResizeEnd]
    once when a resize is in progress and not at all otherwise; [resize]
    calls neither; and after [endResize] the flag [isResizing] is false and
    [lastSize] is null. *)
Theorem C1_resize_episodes (p : Props) (t : Table) (es : list Event) :
  onResizeStart p = true -> onResizeEnd p = true ->
  episodes false (snd (run p (mount t) es)) = true /\
  (forall n : nat,
     let log := take n (snd (run p (mount t) es)) in
     (length (List.filter isEnd log) <= length (List.filter isStart log)
      <= length (List.filter isEnd log) + 1)%nat) /\
  (forall (h : Hook) (item : Key),
     (isResizing h = false -> exists w, snd (startResize p h item) = [OnResizeStart w]) /\
     (isResizing h = true -> snd (startResize p h item) = []) /\
     isResizing (fst (startResize p h item)) = true) /\
  (forall (h : Hook) (item : Key),
     (isResizing h = true -> exists w, snd (endResize p h item) = [OnResizeEnd w]) /\
     (isResizing h = false -> snd (endResize p h item) = []) /\
     isResizing (fst (endResize p h item)) = false /\
     lastSize (fst (endResize p h item)) = None) /\
  (forall (h : Hook) (item : Key) (w : number),
     List.filter (fun c => isStart c || isEnd c) (snd (resize p h item w)) = [] /\
     isResizing (fst (resize p h item w)) = isResizing h).
Proof.
  intros Hs He. pose proof (run_episodes p es (mount t) Hs He) as Hlog.
  split; [|split; [|split; [|split]]].
  - exact Hlog.
  - intros n log. subst log.
    pose proof (episodes_prefix_balance _ false n Hlog) as Hb. simpl in Hb. lia.
  - intros h item. rewrite startResize_calls, Hs. repeat split.
    + intros ->. eauto.
    + by intros ->.
    + apply startResize_isResizing.
  - intros h item. destruct (endResize_refs p h item) as [Hr Hl]. repeat split; try done.
    + intros Hh. by apply endResize_calls_resizing.
    + intros Hh. destruct (endResize_calls p h item) as [-> | (w & _ & ? & _)];
        [reflexivity|congruence].
  - intros h item w. rewrite resize_calls, resize_isResizing.
    by destruct (onResize p).
Qed.

(** *** The hidden input *)

(** C3. The change handler asks the resize state for the current width plus
    10 when the parsed value is greater than the current width and for the
    current width minus 10 otherwise, in particular when the parsed value is
    the current width or is [NaN]; two parsed values on the same side of the
    current width lead to the same request. *)
Theorem C3_change_steps_by_ten (p : Props) (h : Hook) (parsed : number) :
  let currentWidth := getColumnWidth (state h) (column p) in
  let requested := nextValue currentWidth parsed in
  onChange p h parsed = resize p h (column p) requested /\
  state (fst (onChange p h parsed))
    = fst (onColumnResize (state h) (column p) requested) /\
  (num_gt parsed currentWidth = true -> requested = num_add currentWidth (of_Z 10)) /\
  (num_gt parsed currentWidth = false -> requested = num_sub currentWidth (of_Z 10)) /\
  (parsed = currentWidth -> requested = num_sub currentWidth (of_Z 10)) /\
  (parsed = NaN -> requested = num_sub currentWidth (of_Z 10)) /\
  (forall parsed' : number,
     num_gt parsed' currentWidth = num_gt parsed currentWidth ->
     onChange p h parsed' = onChange p h parsed).
Proof.
  intros currentWidth requested. subst requested. unfold onChange, nextValue.
  fold currentWidth. repeat split.
  - unfold resize. by destruct (onColumnResize _ _ _).
  - by intros ->.
  - by intros ->.
  - intros ->. unfold num_gt. by rewrite num_lt_irrefl.
  - intros ->. unfold num_gt. by rewrite num_lt_NaN_r.
  - by intros parsed' ->.
Qed.

(** C4. The input's [min] and [value] are the floors of the column's minimum
    and current width; its [max] is the floor of the maximum width, or
    [Number.MAX_SAFE_INTEGER] when the maximum width is [Infinity]. *)
Theorem C4_range_input_attributes (p : Props) (h : Hook) :
  min (ariaProps p h) = floor (getColumnMinWidth (state h) (column p)) /\
  value (ariaProps p h) = floor (getColumnWidth (state h) (column p)) /\
  max (ariaProps p h) =
    (if bool_decide (getColumnMaxWidth (state h) (column p) = Infinity)
     then MAX_SAFE_INTEGER
     else floor (getColumnMaxWidth (state h) (column p))) /\
  max (ariaProps p h) <> Infinity.
Proof.
  unfold ariaProps. simpl. rewrite floor_is_Infinity. repeat split.
  case_bool_decide as Hm; [discriminate|].
  by destruct (getColumnMaxWidth (state h) (column p)).
Qed.

(** *** Moving the resizer *)

(** C5. For a keyboard move the horizontal delta is the negated [deltaY]
    when [deltaY] is not zero and [deltaX] is, and [deltaX] otherwise, times
    10; for any other pointer it is [deltaX]; in a right-to-left locale
    [deltaX] is negated first; and a move whose delta comes out as zero
    changes nothing and calls nothing, while any other adds the delta to the
    tracked width and resizes to it. *)
Theorem C5_move_delta (p : Props) (h : Hook) (e : MoveEvent) :
  let negated := {| deltaX := num_mul (deltaX e) (of_Z (-1));
                    deltaY := deltaY e; pointerType := pointerType e |} in
  (forall direction : Direction,
     pointerType e = keyboard ->
     num_eq (deltaY e) (of_Z 0) = false -> num_eq (deltaX e) (of_Z 0) = true ->
     moveDelta direction e = num_mul (num_mul (deltaY e) (of_Z (-1))) (of_Z 10)) /\
  (pointerType e = keyboard ->
   num_eq (deltaY e) (of_Z 0) = true \/ num_eq (deltaX e) (of_Z 0) = false ->
   moveDelta ltr e = num_mul (deltaX e) (of_Z 10)) /\
  (pointerType e <> keyboard -> moveDelta ltr e = deltaX e) /\
  moveDelta rtl e = moveDelta ltr negated /\
  (forall direction : Direction,
     num_eq (moveDelta direction e) (of_Z 0) = true ->
     onMove p direction h e = (h, [])) /\
  (forall direction : Direction,
     num_eq (moveDelta direction e) (of_Z 0) = false ->
     let width := num_add (columnResizeWidthRef h) (moveDelta direction e) in
     onMove p direction h e = resize p (setWidthRef h width) (column p) width).
Proof.
  intros negated. unfold onMove, moveDelta. simpl. repeat split.
  - intros direction -> Hy Hx. simpl.
    destruct direction; simpl; rewrite ?negated_is_zero, Hy, Hx; reflexivity.
  - intros -> Hyx. simpl.
    destruct Hyx as [-> | ->]; simpl; by rewrite ?andb_false_r.
  - intros Hk. by rewrite bool_decide_eq_false_2.
  - intros direction ->. reflexivity.
  - intros direction ->. reflexivity.
Qed.

End Hook.

(** *** Examples on a one-column table *)

Lemma C1_resize_episodes_witness :
  onResizeStart resizerProps = true /\
  onResizeEnd resizerProps = true /\
  snd (run resizerProps (mount (of_Z 100 : @Table oneColumn)) sampleEvents)
    = [@OnResizeStart oneColumn (of_Z 100); @OnResize oneColumn (of_Z 120);
       @OnResizeEnd oneColumn (of_Z 120); @OnResizeStart oneColumn (of_Z 120)] /\
  episodes false (snd (run resizerProps (mount (of_Z 100 : @Table oneColumn)) sampleEvents))
    = true.
Proof.
  split; [reflexivity|]. split; [reflexivity|]. split; [reflexivity|].
  apply (C1_resize_episodes resizerProps (of_Z 100 : @Table oneColumn) sampleEvents);
    reflexivity.
Defined.

(** A column 100 wide: a parsed value above it asks for 110 however large it
    is, and 100 itself, a smaller value or [NaN] ask for 90. *)
Example onChange_steps :
  let h := mount (of_Z 100 : @Table oneColumn) in
  state (fst (onChange resizerProps h (of_Z 101))) = of_Z 110 /\
  state (fst (onChange resizerProps h (of_Z 5000))) = of_Z 110 /\
  state (fst (onChange resizerProps h (of_Z 100))) = of_Z 90 /\
  state (fst (onChange resizerProps h (of_Z 3))) = of_Z 90 /\
  state (fst (onChange resizerProps h NaN)) = of_Z 90.
Proof.
  repeat split; apply (bool_decide_unpack _); vm_compute; exact I.
Qed.

(** A column 120.5 wide with minimum 75 and no maximum. *)
Example ariaProps_of_fractional_width :
  let a := ariaProps resizerProps (mount (Finite (Q2Qc (241 # 2)) : @Table oneColumn)) in
  min a = of_Z 75 /\ value a = of_Z 120 /\ max a = of_Z 9007199254740991.
Proof. repeat split. Qed.

(** Arrow-up on the keyboard (deltaY = -1) widens by 10 in either direction
    of text; a vertical mouse move does nothing. *)
Example onMove_keyboard_up :
  let h := fst (onMoveStart resizerProps (mount (of_Z 100 : @Table oneColumn))) in
  let up := {| deltaX := of_Z 0; deltaY := of_Z (-1); pointerType := keyboard |} in
  let drag := {| deltaX := of_Z 0; deltaY := of_Z 7; pointerType := mouse |} in
  state (fst (onMove resizerProps ltr h up)) = of_Z 110 /\
  state (fst (onMove resizerProps rtl h up)) = of_Z 110 /\
  onMove resizerProps ltr h drag = (h, []).
Proof.
  repeat split; apply (bool_decide_unpack _); vm_compute; exact I.
Qed.

End TableColumnResizeFacts.

(** * Further properties *)

(** ** SelectList: toggling, receiving props, rendering *)

Module SelectListLaws.
Import JS SelectList JSFacts SelectListFacts.

Section Slices.
Context {A : Type}.

(** Between bounds that lie inside the list, [slice] is [take] after [drop]. *)
Lemma slice_inside (l : list A) (a b : nat) :
  (a <= b <= length l)%nat ->
  slice l (Z.of_nat a) (Z.of_nat b) = take (b - a) (drop a l).
Proof.
  intros Hab. unfold slice, sliceBound.
  destruct (Z.ltb_spec (Z.of_nat a) 0) as [?|_]; [lia|].
  destruct (Z.ltb_spec (Z.of_nat b) 0) as [?|_]; [lia|].
  rewrite !Z.min_l by lia. rewrite Nat2Z.id. f_equal. lia.
Qed.


(** The first hit of a search lies after every element that does not match. *)
Lemma indexOfFrom_first_hit (eq : A -> A -> bool) (i : Z) (l1 l2 : list A) (y x : A) :
  Forall (fun z => eq z x = false) l1 -> eq y x = true ->
  indexOfFrom eq i (l1 ++ y :: l2) x = i + Z.of_nat (length l1).
Proof.
  intros Hall Hy. revert i. induction Hall as [|z l1 Hz _ IH]; intros i; simpl.
  - rewrite Hy. lia.
  - rewrite Hz, IH. lia.
Qed.

(** A search that meets no matching element reports -1. *)
Lemma indexOfFrom_all_miss (eq : A -> A -> bool) (i : Z) (l : list A) (x : A) :
  Forall (fun z => eq z x = false) l -> indexOfFrom eq i l x = -1.
Proof.
  intros Hall. revert i. induction Hall as [|z l Hz _ IH]; intros i; simpl; [done|].
  by rewrite Hz.
Qed.

End Slices.

(** *** Toggling in multiple mode *)

Lemma indexOf_first_hit (l1 l2 : list JS.value) (y x : JS.value) :
  indexOf l1 x = -1 -> strictEq y x = true ->
  indexOf (l1 ++ y :: l2) x = Z.of_nat (length l1).
Proof.
  intros Hm Hy. unfold indexOf. rewrite indexOfFrom_first_hit; [lia| |done].
  by apply (indexOfFrom_miss _ 0).
Qed.

Lemma removeSelection_first_hit
  (st : State) (o : SelectOption) (l1 l2 : list JS.value) (y : JS.value) :
  selection st = Some (l1 ++ y :: l2) ->
  indexOf l1 (opt_value o) = -1 ->
  strictEq y (opt_value o) = true ->
  removeSelection st o = Some (l1 ++ l2).
Proof.
  intros Hs Hm Hy. unfold removeSelection. rewrite Hs. simpl.
  rewrite (indexOf_first_hit _ _ _ _ Hm Hy).
  change 0 with (Z.of_nat 0) at 1.
  rewrite slice_inside by (rewrite length_app; simpl; lia).
  replace (Z.of_nat (length l1) + 1) with (Z.of_nat (S (length l1))) by lia.
  rewrite slice_inside by (rewrite length_app; simpl; lia).
  rewrite drop_0, Nat.sub_0_r, take_app_length.
  rewrite (cons_middle y l1 l2), app_assoc.
  rewrite drop_app_length' by (rewrite length_app; simpl; lia).
  rewrite take_ge by (rewrite !length_app; simpl; lia).
  reflexivity.
Qed.

(** X1. [removeSelection] takes out exactly the first element that is
    strictly equal to the option's value and keeps the others in order. *)
Theorem X1_removeSelection_first_occurrence
  (st : State) (o : SelectOption) (l1 l2 : list JS.value) (y : JS.value) :
  selection st = Some (l1 ++ y :: l2) ->
  indexOf l1 (opt_value o) = -1 ->
  strictEq y (opt_value o) = true ->
  removeSelection st o = Some (l1 ++ l2).
Proof. apply removeSelection_first_hit. Qed.

Lemma X1_removeSelection_first_occurrence_witness :
  selection {| value := VArray [VString "a"; VString "b"; VString "a"] |}
    = Some ([] ++ VString "a" :: [VString "b"; VString "a"]) /\
  indexOf [] (opt_value (optionOf (VString "a"))) = -1 /\
  strictEq (VString "a") (opt_value (optionOf (VString "a"))) = true /\
  removeSelection {| value := VArray [VString "a"; VString "b"; VString "a"] |}
    (optionOf (VString "a")) = Some ([] ++ [VString "b"; VString "a"]).
Proof.
  split; [reflexivity|]. split; [reflexivity|]. split; [reflexivity|].
  apply (X1_removeSelection_first_occurrence _ _ [] [VString "b"; VString "a"] (VString "a"));
    reflexivity.
Defined.



Lemma indexOf_app_miss (l1 l2 : list JS.value) (x : JS.value) :
  indexOf l1 x = -1 -> indexOf l2 x = -1 -> indexOf (l1 ++ l2) x = -1.
Proof.
  intros H1 H2. apply indexOfFrom_all_miss, Forall_app.
  split; by apply (indexOfFrom_miss _ 0).
Qed.

(** X3. In uncontrolled multiple mode, [handleSelect] for an option whose
    value is selected once takes that value out, and [handleSelect] for it
    again appends it: the value comes back at the end of the list, not at
    its old place. *)
Theorem X3_reselect_moves_to_end
  (p : Props) (o : SelectOption) (l1 l2 : list JS.value) (y : JS.value) :
  truthy (prop p "multiple") = true ->
  controlled p = false ->
  indexOf l1 (opt_value o) = -1 ->
  strictEq y (opt_value o) = true ->
  indexOf l2 (opt_value o) = -1 ->
  exists calls1 calls2,
    handleSelect p {| value := VArray (l1 ++ y :: l2) |} o
      = Some ({| value := VArray (l1 ++ l2) |}, calls1) /\
    handleSelect p {| value := VArray (l1 ++ l2) |} o
      = Some ({| value := VArray (l1 ++ l2 ++ [opt_value o]) |}, calls2).
Proof.
  intros Hm Hc H1 Hy H2. eexists _, _. split.
  - apply handleSelect_uncontrolled; [done|]. unfold nextOptions.
    rewrite Hm, (isSelected_multiple _ _ _ Hm), (indexOf_first_hit _ _ _ _ H1 Hy).
    destruct (Z.leb_spec 0 (Z.of_nat (length l1))) as [_|?]; [|lia].
    rewrite (removeSelection_first_hit _ o l1 l2 y) by done. reflexivity.
  - apply handleSelect_uncontrolled; [done|]. rewrite app_assoc.
    apply nextOptions_add; [done|]. by apply indexOf_app_miss.
Qed.

Lemma X3_reselect_moves_to_end_witness :
  truthy (prop multipleProps "multiple") = true /\
  controlled multipleProps = false /\
  indexOf [] (opt_value optionB) = -1 /\
  strictEq (VString "b") (opt_value optionB) = true /\
  indexOf [VString "c"] (opt_value optionB) = -1 /\
  exists calls1 calls2,
    handleSelect multipleProps {| value := VArray ([] ++ VString "b" :: [VString "c"]) |} optionB
      = Some ({| value := VArray ([] ++ [VString "c"]) |}, calls1) /\
    handleSelect multipleProps {| value := VArray ([] ++ [VString "c"]) |} optionB
      = Some ({| value := VArray ([] ++ [VString "c"] ++ [opt_value optionB]) |}, calls2).
Proof.
  split; [reflexivity|]. split; [vm_compute; reflexivity|]. split; [reflexivity|].
  split; [reflexivity|]. split; [reflexivity|].
  apply (X3_reselect_moves_to_end multipleProps optionB [] [VString "c"] (VString "b"));
    solve [reflexivity | vm_compute; reflexivity].
Defined.

(** *** Single mode *)

(** X4. Outside multiple mode [handleSelect] never fails and never
    deselects: whatever is stored, the next value is the option's value; in
    uncontrolled mode a second call for the same option stores the same
    value again, and the option then counts as selected exactly when its
    value is strictly equal to itself. *)
Theorem X4_single_mode_selects (p : Props) (st : State) (o : SelectOption) :
  truthy (prop p "multiple") = false ->
  let st' := {| value := opt_value o |} in
  let calls := if onChange p then [opt_value o] else [] in
  nextOptions p st o = Some (opt_value o) /\
  (controlled p = false ->
   handleSelect p st o = Some (st', calls) /\
   handleSelect p st' o = Some (st', calls)) /\
  isSelected p st' o = Some (VBool (strictEq (opt_value o) (opt_value o))).
Proof.
  intros Hm st' calls.
  assert (forall s, nextOptions p s o = Some (opt_value o)) as Hn
    by (intros s; unfold nextOptions; by rewrite Hm).
  split; [apply Hn|]. split.
  - intros Hc. split; apply handleSelect_uncontrolled; auto.
  - unfold isSelected. by rewrite Hm.
Qed.

Lemma X4_single_mode_selects_witness :
  truthy (prop overridingProps "multiple") = false /\
  let st' := {| value := opt_value optionB |} in
  let calls := if onChange overridingProps then [opt_value optionB] else [] in
  nextOptions overridingProps {| value := VString "a" |} optionB = Some (opt_value optionB) /\
  (controlled overridingProps = false ->
   handleSelect overridingProps {| value := VString "a" |} optionB = Some (st', calls) /\
   handleSelect overridingProps st' optionB = Some (st', calls)) /\
  isSelected overridingProps st' optionB
    = Some (VBool (strictEq (opt_value optionB) (opt_value optionB))).
Proof.
  split; [reflexivity|].
  apply (X4_single_mode_selects overridingProps {| value := VString "a" |} optionB).
  reflexivity.
Defined.

(** *** Receiving props *)

(** A truthy value is strictly equal to itself. *)
Lemma truthy_strictEq_self (v : JS.value) : truthy v = true -> strictEq v v = true.
Proof. intros Ht. apply strictEq_self. by intros ->. Qed.

(** X5. After [componentWillReceiveProps] with a truthy [value] the stored
    value is strictly equal to the one received, and receiving the same
    props a second time changes nothing. *)
Theorem X5_receiving_props_twice (st : State) (p : Props) :
  (truthy (prop p "value") = true ->
   strictEq (prop p "value") (value (componentWillReceiveProps st p)) = true) /\
  componentWillReceiveProps (componentWillReceiveProps st p) p
    = componentWillReceiveProps st p.
Proof.
  unfold componentWillReceiveProps.
  destruct (truthy (prop p "value")) eqn:Ht;
    destruct (strictEq (prop p "value") (value st)) eqn:Hs; simpl;
    rewrite ?Ht, ?Hs; simpl; try (by split).
  rewrite (truthy_strictEq_self _ Ht). by split.
Qed.

(** *** What [render] hands to the [List] *)

Lemma renderListOfOptions_Some (p : Props) (st : State) (opts : list SelectOption)
    (items : list ListItemElement) :
  renderListOfOptions p st opts = Some items ->
  length items = length opts /\
  forall (i : nat) (o : SelectOption), opts !! i = Some o ->
    exists sel,
      isSelected p st o = Some sel /\
      items !! i = Some {| key := i;
                           item_icon := opt_icon o;
                           selected := sel;
                           item_disabled := or_else (prop p "disabled") (opt_disabled o);
                           onSelect := o;
                           item_children := opt_label o |}.
Proof.
  unfold renderListOfOptions. intros Hm. apply mapM_Some in Hm.
  pose proof (Forall2_length _ _ _ Hm) as Hlen. rewrite length_imap in Hlen.
  split; [done|]. intros i o Ho.
  assert (imap pair opts !! i = Some (i, o)) as Hio
    by (rewrite list_lookup_imap, Ho; reflexivity).
  destruct (Forall2_lookup_l _ _ _ _ _ Hm Hio) as (item & Hitem & Hf).
  cbn beta iota in Hf. destruct (isSelected p st o) as [sel|]; [|discriminate].
  exists sel. split; [done|]. simpl in Hf. congruence.
Qed.

(** X6. When [render] returns, the [List] has one [ListItem] per option, in
    the order of the options and keyed by position; each carries its
    option's label and icon and the answer of [isSelected]; a truthy
    [disabled] prop is what every item gets as [disabled], whatever the
    options say; and without an [options] prop there is no item. *)
Theorem X6_render_items (p : Props) (st : State) (el : ListElement) :
  render p st = Some el ->
  let opts := default [] (options p) in
  length (list_children el) = length opts /\
  (forall (i : nat) (o : SelectOption), opts !! i = Some o ->
     exists item,
       list_children el !! i = Some item /\
       key item = i /\ onSelect item = o /\
       item_children item = opt_label o /\ item_icon item = opt_icon o /\
       isSelected p st o = Some (selected item) /\
       (truthy (prop p "disabled") = true -> item_disabled item = prop p "disabled") /\
       (truthy (prop p "disabled") = false -> item_disabled item = opt_disabled o)) /\
  (options p = None -> list_children el = []).
Proof.
  intros Hr opts. unfold render in Hr. fold opts in Hr.
  destruct (renderListOfOptions p st opts) as [items|] eqn:Hi; [|discriminate].
  simpl in Hr. injection Hr as <-. simpl.
  destruct (renderListOfOptions_Some _ _ _ _ Hi) as [Hlen Hitems].
  split; [exact Hlen|]. split.
  - intros i o Ho. destruct (Hitems i o Ho) as (sel & Hsel & Hitem).
    eexists. split; [exact Hitem|]. simpl. unfold or_else.
    repeat split; try done; by intros ->.
  - intros Hn. subst opts. rewrite Hn in Hlen. simpl in Hlen.
    by destruct items.
Qed.

Lemma X6_render_items_witness :
  let p := {| options := Some [optionB; optionNaN]; onChange := false;
              attrs := {["disabled"%string := VBool true]} |} in
  let st := {| value := VString "b" |} in
  exists el,
    render p st = Some el /\
    length (list_children el) = length (default [] (options p)) /\
    list_children el !! 0%nat
      = Some {| key := 0; item_icon := VUndefined; selected := VBool true;
                item_disabled := VBool true; onSelect := optionB;
                item_children := VString "b" |}.
Proof.
  intros p st. destruct (render p st) as [el|] eqn:Hr; [|discriminate].
  exists el. split; [reflexivity|].
  split; [apply (X6_render_items p st el Hr)|].
  vm_compute in Hr. injection Hr as <-. reflexivity.
Defined.



End SelectListLaws.

(** ** useTableColumnResize: the handlers *)

Module ResizerHandlerFacts.
Import JS TableColumnResize ResizerHandlers JSFacts TableColumnResizeFacts.

Section Handlers.
Context `{TableColumnResizeState}.

Lemma sameRefs_refl (h : Hook) : sameRefs h h.
Proof. by repeat split. Qed.

Lemma sameRefs_setWidthRef (h : Hook) (w : number) : sameRefs (setWidthRef h w) h.
Proof. by repeat split. Qed.

Lemma sameRefs_trans (h1 h2 h3 : Hook) : sameRefs h1 h2 -> sameRefs h2 h3 -> sameRefs h1 h3.
Proof. intros (? & ? & ?) (? & ? & ?). repeat split; congruence. Qed.

(** The three operations do not read the tracked width. *)
Lemma step_sameRefs (p : Props) (h h' : Hook) (e : Event) :
  sameRefs h h' ->
  snd (step p h e) = snd (step p h' e) /\
  sameRefs (fst (step p h e)) (fst (step p h' e)).
Proof.
  intros (Hs & Hr & Hl). destruct e as [|w|]; simpl.
  - unfold startResize. rewrite Hs, Hr, Hl.
    destruct (isResizing h'); simpl; [by repeat split|].
    destruct (onColumnResize _ _ _). by repeat split.
  - unfold resize. rewrite Hs, Hr. destruct (onColumnResize _ _ _). by repeat split.
  - unfold endResize. rewrite Hs, Hr, Hl.
    destruct (lastSize h'); [|destruct (onColumnResize _ _ _)];
      destruct (isResizing h'); by repeat split.
Qed.

Lemma run_sameRefs (p : Props) (es : list Event) (h h' : Hook) :
  sameRefs h h' ->
  snd (run p h es) = snd (run p h' es) /\
  sameRefs (fst (run p h es)) (fst (run p h' es)).
Proof.
  revert h h'. induction es as [|e es IH]; intros h h' Hh; [by split|].
  rewrite !run_cons. simpl.
  destruct (step_sameRefs p h h' e Hh) as [-> Hh1].
  destruct (IH _ _ Hh1) as [-> Hh2]. by split.
Qed.

Lemma callbacks_app (l1 l2 : list Effect) :
  callbacks (l1 ++ l2) = callbacks l1 ++ callbacks l2.
Proof. apply omap_app. Qed.

Lemma callbacks_Callback (calls : list Call) : callbacks (Callback <$> calls) = calls.
Proof.
  unfold callbacks. induction calls as [|c calls IH]; [done|].
  rewrite fmap_cons. simpl. by f_equal.
Qed.

(** Every handler acts on the refs, the resize state and the callbacks as
    at most one of the three operations does, from a hook that differs at
    most in the tracked width. *)
Lemma handle_as_steps (p : Props) (h : Hook) (re : Render * UserEvent) :
  exists es : list Event,
    callbacks (snd (handle p h re)) = snd (run p h es) /\
    sameRefs (fst (handle p h re)) (fst (run p h es)).
Proof.
  destruct re as [r ev]. destruct ev as [key| |e|e|e|e|parsed|]; simpl.
  - unfold keyboard_onKeyDown.
    destruct (editModeEnabled r).
    { exists []. destruct (_ && _); simpl; split; try apply sameRefs_refl;
        unfold onKeyDown; by destruct (editModeEnabled r). }
    destruct (bool_decide (key = "Enter"%string)).
    + exists [StartResize]. rewrite run_cons. simpl.
      destruct (startResize p h (column p)) as [h1 calls]. simpl.
      rewrite !callbacks_app, callbacks_Callback, app_nil_r.
      split; [|apply sameRefs_refl].
      unfold onKeyDown. destruct (_ || _), (editModeEnabled r); simpl; by rewrite ?app_nil_r.
    + exists []. simpl. split; [|apply sameRefs_refl].
      rewrite callbacks_app. unfold onKeyDown.
      by destruct (_ || _), (editModeEnabled r).
  - exists [StartResize]. rewrite run_cons. simpl. rewrite callbacks_Callback, app_nil_r.
    unfold onMoveStart.
    apply (step_sameRefs p _ h StartResize), sameRefs_setWidthRef.
  - unfold onMove. destruct (negb _).
    + eexists [Resize _]. rewrite run_cons. simpl. rewrite callbacks_Callback, app_nil_r.
      apply (step_sameRefs p _ h (Resize _)), sameRefs_setWidthRef.
    + exists []. simpl. split; [done|apply sameRefs_refl].
  - unfold onMoveEnd. destruct (bool_decide _).
    + exists [EndResize]. rewrite run_cons. simpl. rewrite callbacks_Callback, app_nil_r.
      apply (step_sameRefs p _ h EndResize), sameRefs_setWidthRef.
    + exists []. simpl. split; [done|apply sameRefs_setWidthRef].
  - unfold onPressStart. destruct (_ || _).
    { exists []. split; [done|apply sameRefs_refl]. }
    destruct (_ && _).
    + exists [EndResize]. rewrite run_cons. simpl.
      destruct (endResize p h (column p)) as [h1 calls]. simpl.
      rewrite callbacks_app, callbacks_Callback, app_nil_r.
      split; [|apply sameRefs_refl]. by destruct (triggerCurrent r); rewrite ?app_nil_r.
    + exists []. simpl. split; [|apply sameRefs_refl].
      unfold focusInput. by destruct (inputCurrent r).
  - exists []. simpl. split; [|apply sameRefs_refl].
    unfold onPress, focusInput. by repeat case_match.
  - eexists [Resize _]. rewrite run_cons. simpl. rewrite callbacks_Callback, app_nil_r.
    unfold onChange. split; [reflexivity|apply sameRefs_refl].
  - exists [EndResize]. rewrite run_cons. simpl. unfold onBlur.
    destruct (endResize p h (column p)) as [h1 calls]. simpl.
    rewrite callbacks_app, callbacks_Callback, app_nil_r. simpl.
    split; [by rewrite app_nil_r|apply sameRefs_refl].
Qed.

Lemma run_app (p : Props) (es1 es2 : list Event) (h : Hook) :
  run p h (es1 ++ es2)
    = (fst (run p (fst (run p h es1)) es2),
       snd (run p h es1) ++ snd (run p (fst (run p h es1)) es2)).
Proof.
  revert h. induction es1 as [|e es1 IH]; intros h.
  - simpl. by destruct (run p h es2).
  - rewrite <- app_comm_cons, !run_cons, IH. simpl. by rewrite app_assoc.
Qed.

Lemma runHandlers_cons (p : Props) (h : Hook) (ev : Render * UserEvent)
    (evs : list (Render * UserEvent)) :
  runHandlers p h (ev :: evs)
    = (fst (runHandlers p (fst (handle p h ev)) evs),
       snd (handle p h ev) ++ snd (runHandlers p (fst (handle p h ev)) evs)).
Proof.
  simpl. destruct (handle p h ev) as [h1 effects]. simpl.
  by destruct (runHandlers p h1 evs).
Qed.

Lemma runHandlers_app (p : Props) (evs1 evs2 : list (Render * UserEvent)) (h : Hook) :
  runHandlers p h (evs1 ++ evs2)
    = (fst (runHandlers p (fst (runHandlers p h evs1)) evs2),
       snd (runHandlers p h evs1) ++ snd (runHandlers p (fst (runHandlers p h evs1)) evs2)).
Proof.
  revert h. induction evs1 as [|ev evs1 IH]; intros h.
  - simpl. by destruct (runHandlers p h evs2).
  - rewrite <- app_comm_cons, !runHandlers_cons, IH. simpl. by rewrite app_assoc.
Qed.

(** The calls made by any sequence of handler invocations are the calls of
    some sequence of the three operations. *)
Lemma runHandlers_as_run (p : Props) (evs : list (Render * UserEvent)) (h h' : Hook) :
  sameRefs h h' ->
  exists es : list Event,
    callbacks (snd (runHandlers p h evs)) = snd (run p h' es) /\
    sameRefs (fst (runHandlers p h evs)) (fst (run p h' es)).
Proof.
  revert h h'. induction evs as [|ev evs IH]; intros h h' Hh.
  - exists []. by split.
  - rewrite runHandlers_cons. simpl.
    destruct (handle_as_steps p h ev) as (es1 & Hc1 & Hh1).
    destruct (run_sameRefs p es1 h h' Hh) as [Hc1' Hh1'].
    destruct (IH _ (fst (run p h' es1)) (sameRefs_trans _ _ _ Hh1 Hh1')) as (es2 & Hc2 & Hh2).
    exists (es1 ++ es2). rewrite run_app, callbacks_app. simpl.
    split; [congruence|exact Hh2].
Qed.

(** X8. With [onResizeStart] and [onResizeEnd] supplied, the calls made by
    any sequence of invocations of the hook's handlers (key presses, moves,
    presses, changes of the input, blur), in whatever render each one runs,
    read as episodes: the callbacks alternate, starting with
    [onResizeStart]. *)
Theorem X8_handlers_keep_episodes (p : Props) (t : Table) (evs : list (Render * UserEvent)) :
  onResizeStart p = true -> onResizeEnd p = true ->
  episodes false (callbacks (snd (runHandlers p (mount t) evs))) = true.
Proof.
  intros Hs He.
  destruct (runHandlers_as_run p evs (mount t) (mount t) (sameRefs_refl _)) as (es & -> & _).
  apply (run_episodes p es (mount t) Hs He).
Qed.

(** *** What [onResizeEnd] is given *)

Lemma run_reportsLast (p : Props) (es : list Event) (h : Hook) (prev : option Widths) :
  onResizeStart p = true -> onResize p = true -> onResizeEnd p = true ->
  (isResizing h = true -> exists w, prev = Some w /\ lastSize h = Some w) ->
  reportsLast prev (snd (run p h es)).
Proof.
  intros Hs Hr He. revert h prev. induction es as [|e es IH]; intros h prev Hinv; [done|].
  rewrite run_cons. simpl. destruct e as [|w|]; simpl.
  - unfold startResize. destruct (isResizing h) eqn:Hres; simpl.
    + apply IH. simpl. intros _. by apply Hinv.
    + destruct (onColumnResize _ _ _) as [t1 sizes]. rewrite Hs. simpl.
      split; [discriminate|]. apply IH. simpl. eauto.
  - unfold resize. destruct (onColumnResize _ _ _) as [t1 sizes]. rewrite Hr. simpl.
    split; [discriminate|]. apply IH. simpl. eauto.
  - unfold endResize. destruct (isResizing h) eqn:Hres.
    + destruct (Hinv eq_refl) as (w & -> & ->). rewrite He. simpl.
      split; [done|]. apply IH. simpl. discriminate.
    + clear Hinv. destruct (lastSize h) as [sizes|]; simpl.
      * apply IH. simpl. discriminate.
      * destruct (onColumnResize _ _ _) as [t1 sizes]. simpl.
        apply IH. simpl. discriminate.
Qed.

Lemma reportsLast_adjacent (log pre post : list Call) (c : Call) (w : Widths)
    (prev : option Widths) :
  reportsLast prev log ->
  log = pre ++ c :: OnResizeEnd w :: post ->
  callWidths c = w.
Proof.
  revert log prev. induction pre as [|d pre IH]; intros log prev Hlog ->; simpl in Hlog.
  - destruct Hlog as (_ & Hw & _). specialize (Hw eq_refl). simpl in Hw. congruence.
  - destruct Hlog as [_ Hlog]. by apply (IH _ _ Hlog).
Qed.

(** X9. With the three callbacks supplied, in the calls made by any
    sequence of handler invocations after mounting every [onResizeEnd] is
    given the widths that the call just before it was given: the resize ends
    on the sizes last reported by [onResize], or on those of
    [onResizeStart] when nothing was resized in between. *)
Theorem X9_end_reports_last_sizes
  (p : Props) (t : Table) (evs : list (Render * UserEvent))
  (pre post : list Call) (c : Call) (w : Widths) :
  onResizeStart p = true -> onResize p = true -> onResizeEnd p = true ->
  callbacks (snd (runHandlers p (mount t) evs)) = pre ++ c :: OnResizeEnd w :: post ->
  callWidths c = w.
Proof.
  intros Hs Hr He.
  destruct (runHandlers_as_run p evs (mount t) (mount t) (sameRefs_refl _)) as (es & -> & _).
  apply (reportsLast_adjacent _ _ _ _ _ None).
  by apply run_reportsLast.
Qed.

(** *** Moves *)

Lemma num_add_0_r (x : number) : num_add x (of_Z 0) = x.
Proof.
  destruct x as [| | |q]; try reflexivity. simpl. f_equal.
  change (Q2Qc (inject_Z 0)) with 0%Qc. apply Qcplus_0_r.
Qed.

Lemma num_eq_eq (x y : number) : num_eq x y = true -> x = y.
Proof.
  destruct x, y; simpl; try discriminate; try reflexivity.
  intros E. apply bool_decide_eq_true_1 in E. congruence.
Qed.

(** Whether it resizes or not, a move adds its delta to the tracked width,
    leaves [isResizing] alone and calls nothing but [onResize]. *)
Lemma onMove_tracks (p : Props) (direction : Direction) (h : Hook) (e : MoveEvent) :
  columnResizeWidthRef (fst (onMove p direction h e))
    = num_add (columnResizeWidthRef h) (moveDelta direction e) /\
  isResizing (fst (onMove p direction h e)) = isResizing h /\
  Forall (fun c => isStart c = false /\ isEnd c = false) (snd (onMove p direction h e)).
Proof.
  unfold onMove. destruct (num_eq (moveDelta direction e) (of_Z 0)) eqn:Hz; simpl.
  - apply num_eq_eq in Hz. rewrite Hz, num_add_0_r. by repeat split.
  - unfold resize. destruct (onColumnResize _ _ _) as [t1 sizes]. simpl.
    repeat split. destruct (onResize p); by repeat constructor.
Qed.

Lemma moves_track (p : Props) (r : Render) (es : list MoveEvent) (h : Hook) :
  let result := runHandlers p h ((fun e => (r, Move e)) <$> es) in
  columnResizeWidthRef (fst result)
    = fold_left (fun w e => num_add w (moveDelta (direction r) e)) es
                (columnResizeWidthRef h) /\
  isResizing (fst result) = isResizing h /\
  Forall (fun c => isStart c = false /\ isEnd c = false) (callbacks (snd result)).
Proof.
  revert h. induction es as [|e es IH]; intros h; [by repeat split|].
  rewrite fmap_cons. cbv zeta. rewrite runHandlers_cons. simpl.
  destruct (onMove_tracks p (direction r) h e) as (Hw & Hr & Hc).
  destruct (IH (fst (onMove p (direction r) h e))) as (Hw' & Hr' & Hc').
  rewrite Hw', Hw, Hr', Hr, callbacks_app, callbacks_Callback.
  repeat split. by apply Forall_app.
Qed.

(** X10. During a drag the width asked for is never read back from the
    table: after [onMoveStart] and any moves the tracked width is the
    column's width when the drag began plus the deltas of all the moves,
    whatever the resize state made of the earlier requests. *)
Theorem X10_drag_accumulates_deltas (p : Props) (r : Render) (h : Hook) (es : list MoveEvent) :
  let start := fst (onMoveStart p h) in
  let final := fst (runHandlers p start ((fun e => (r, Move e)) <$> es)) in
  columnResizeWidthRef final
    = fold_left (fun w e => num_add w (moveDelta (direction r) e)) es
                (getColumnWidth (state h) (column p)) /\
  isResizing final = true.
Proof.
  intros start final. subst final.
  destruct (moves_track p r es start) as (Hw & Hr & _).
  rewrite Hw, Hr. subst start. unfold onMoveStart.
  rewrite startResize_isResizing. split; [|done]. f_equal.
  unfold startResize, setWidthRef. simpl.
  destruct (isResizing h); simpl; [done|]. by destruct (onColumnResize _ _ _).
Qed.

Lemma filter_none (calls : list Call) (f : Call -> bool) :
  Forall (fun c => f c = false) calls -> List.filter f calls = [].
Proof.
  induction 1 as [|c calls Hc _ IH]; [done|]. simpl. by rewrite Hc.
Qed.

(** X11. A whole gesture on an idle resizer, with [onResizeStart] and
    [onResizeEnd] supplied: [onMoveStart], any moves, [onMoveEnd].  It calls
    [onResizeStart] once and sets the tracked width back to 0; when the
    pointer is the mouse it calls [onResizeEnd] once and leaves the hook
    idle; for any other pointer (the keyboard among them) it does not call
    [onResizeEnd] and the resize stays in progress. *)
Theorem X11_move_gesture
  (p : Props) (r : Render) (h : Hook) (es : list MoveEvent) (e : MoveEvent) :
  isResizing h = false ->
  onResizeStart p = true -> onResizeEnd p = true ->
  let gesture := (r, MoveStart) :: ((fun e => (r, Move e)) <$> es) ++ [(r, MoveEnd e)] in
  let final := fst (runHandlers p h gesture) in
  let log := callbacks (snd (runHandlers p h gesture)) in
  length (List.filter isStart log) = 1%nat /\
  columnResizeWidthRef final = of_Z 0 /\
  (pointerType e = mouse ->
   length (List.filter isEnd log) = 1%nat /\
   isResizing final = false /\ lastSize final = None) /\
  (pointerType e <> mouse ->
   List.filter isEnd log = [] /\ isResizing final = true).
Proof.
  intros Hidle Hs He gesture final log. subst final log gesture.
  rewrite runHandlers_cons, runHandlers_app.
  rewrite (runHandlers_cons p _ (r, MoveEnd e) []).
  cbn [runHandlers handle withCallbacks fst snd].
  set (start := fst (onMoveStart p h)).
  destruct (moves_track p r es start) as (_ & Hr & Hc).
  set (moved := runHandlers p start ((fun e => (r, Move e)) <$> es)) in *.
  assert (isResizing (fst moved) = true) as Hres.
  { rewrite Hr. apply startResize_isResizing. }
  assert (exists w, snd (onMoveStart p h) = [OnResizeStart w]) as [w0 Hstart].
  { unfold onMoveStart. rewrite startResize_calls. simpl. rewrite Hidle, Hs. eauto. }
  rewrite !callbacks_app, !callbacks_Callback, Hstart.
  change (callbacks []) with (@nil Call). rewrite app_nil_r.
  rewrite !List.filter_app.
  rewrite (filter_none (callbacks (snd moved)) isStart) by (eapply Forall_impl; [exact Hc|by intros ? []]).
  rewrite (filter_none (callbacks (snd moved)) isEnd)
    by (eapply Forall_impl; [exact Hc|by intros ? []]).
  cbn [List.filter isStart isEnd app length]. unfold onMoveEnd.
  split; [|split; [|split]].
  - destruct (bool_decide (pointerType e = mouse)); simpl; [|done].
    destruct (endResize_calls p (setWidthRef (fst moved) (of_Z 0)) (column p))
      as [-> | (w & -> & _)]; done.
  - destruct (bool_decide (pointerType e = mouse)); simpl; [|done].
    unfold endResize. by repeat case_match.
  - intros Hm. rewrite bool_decide_eq_true_2 by done.
    destruct (endResize_refs p (setWidthRef (fst moved) (of_Z 0)) (column p)) as [-> ->].
    destruct (endResize_calls_resizing p (setWidthRef (fst moved) (of_Z 0)) (column p))
      as [w ->]; done.
  - intros Hm. rewrite bool_decide_eq_false_2 by done. simpl. by split.
Qed.

End Handlers.

(** *** Examples on a one-column table *)

Lemma X8_handlers_keep_episodes_witness :
  onResizeStart resizerProps = true /\
  onResizeEnd resizerProps = true /\
  callbacks (snd (runHandlers resizerProps (mount (of_Z 100 : @Table oneColumn)) keyboardSession))
    = [@OnResizeStart oneColumn (of_Z 100); @OnResize oneColumn (of_Z 110);
       @OnResize oneColumn (of_Z 120); @OnResizeEnd oneColumn (of_Z 120)] /\
  episodes false
    (callbacks (snd (runHandlers resizerProps (mount (of_Z 100 : @Table oneColumn))
                                 keyboardSession))) = true.
Proof.
  split; [reflexivity|]. split; [reflexivity|].
  split; [vm_compute; reflexivity|].
  apply (X8_handlers_keep_episodes resizerProps (of_Z 100 : @Table oneColumn) keyboardSession);
    reflexivity.
Defined.

Lemma X9_end_reports_last_sizes_witness :
  onResizeStart resizerProps = true /\
  onResize resizerProps = true /\
  onResizeEnd resizerProps = true /\
  callbacks (snd (runHandlers resizerProps (mount (of_Z 100 : @Table oneColumn)) keyboardSession))
    = [@OnResizeStart oneColumn (of_Z 100); @OnResize oneColumn (of_Z 110)]
      ++ @OnResize oneColumn (of_Z 120) :: @OnResizeEnd oneColumn (of_Z 120) :: [] /\
  callWidths (@OnResize oneColumn (of_Z 120)) = of_Z 120.
Proof.
  split; [reflexivity|]. split; [reflexivity|]. split; [reflexivity|].
  split; [vm_compute; reflexivity|].
  apply (X9_end_reports_last_sizes resizerProps (of_Z 100 : @Table oneColumn) keyboardSession
           [@OnResizeStart oneColumn (of_Z 100); @OnResize oneColumn (of_Z 110)] []);
    solve [reflexivity | vm_compute; reflexivity].
Defined.

Lemma X11_move_gesture_witness :
  let h := mount (of_Z 100 : @Table oneColumn) in
  let gesture := (editing, MoveStart)
                   :: ((fun e => (editing, Move e)) <$> [mouseStep 5; mouseStep (-2)])
                   ++ [(editing, MoveEnd (mouseStep 0))] in
  isResizing h = false /\
  onResizeStart resizerProps = true /\
  onResizeEnd resizerProps = true /\
  pointerType (mouseStep 0) = mouse /\
  length (List.filter isStart (callbacks (snd (runHandlers resizerProps h gesture)))) = 1%nat /\
  length (List.filter isEnd (callbacks (snd (runHandlers resizerProps h gesture)))) = 1%nat /\
  isResizing (fst (runHandlers resizerProps h gesture)) = false.
Proof.
  intros h gesture.
  split; [reflexivity|]. split; [reflexivity|]. split; [reflexivity|]. split; [reflexivity|].
  destruct (X11_move_gesture resizerProps editing h [mouseStep 5; mouseStep (-2)] (mouseStep 0)
              eq_refl eq_refl eq_refl) as (Hstart & _ & Hmouse & _).
  destruct (Hmouse eq_refl) as (Hend & Hidle & _).
  split; [exact Hstart|]. split; [exact Hend|exact Hidle].
Defined.

End ResizerHandlerFacts.

(** ** TableView sizing and scrolling, and the controlled stories *)

Module TableViewLaws.
Import JS TableView TableVirtualizer TableViewScroll.

(** X12. A column never starts below its minimum: whenever
    [getDefaultWidth] returns a width, [getDefaultMinWidth] returns the same
    one; [getDefaultMinWidth] always returns a width, between 38 and 75, and
    it is 75 exactly for the columns that [getDefaultWidth] leaves
    [undefined]. *)
Theorem X12_default_width_meets_minimum (scale : Scale) (props : ColumnProps) :
  (forall w : Z, getDefaultWidth scale props = Some w ->
                 getDefaultMinWidth scale props = Some w) /\
  exists m : Z,
    getDefaultMinWidth scale props = Some m /\ 38 <= m <= 75 /\
    (getDefaultWidth scale props = None <-> m = 75).
Proof.
  unfold getDefaultWidth, getDefaultMinWidth.
  destruct props as [[] [] []], scale; simpl;
    (split; [by intros w [= <-] || done|]); eexists; (split; [reflexivity|]);
    (split; [lia|]); split; done.
Qed.

(** X13. The two synchronisations of header and body do not chase each
    other: after the body's scroll handler the resizer's focus handler
    changes nothing, and the other way round; each is idempotent; and the
    element [scrollToItem] leaves behind, off the keyboard, is one the
    scroll handler does not change. *)
Theorem X13_scroll_sync_settles `{Host} :
  (forall d : Dom,
     onScroll (onScroll d) = onScroll d /\
     onFocusedResizer (onFocusedResizer d) = onFocusedResizer d /\
     onFocusedResizer (onScroll d) = onScroll d /\
     onScroll (onFocusedResizer d) = onFocusedResizer d /\
     scrollLeft (bodyRef (onFocusedResizer d)) = scrollLeft (headerRef (onFocusedResizer d)) /\
     headerRef (onFocusedResizer d) = headerRef d) /\
  (forall (collection : Collection) (k : string) (d d' : Dom),
     getInteractionModality <> Some TableVirtualizer.keyboard ->
     scrollToItem collection k d = Some d' ->
     onScroll d' = d' /\ onFocusedResizer d' = d').
Proof.
  split.
  - intros [[hl ht] [bl bt]]. by repeat split.
  - intros collection k d d' Hm. unfold scrollToItem.
    destruct (scrollOptions collection k) as [opts|]; [|discriminate].
    simpl. rewrite bool_decide_eq_false_2 by done. intros [= <-].
    destruct (virtualizer_scrollToItem k opts d) as [[hl ht] [bl bt]]. by split.
Qed.

End TableViewLaws.

Module ControlledTableResizingFacts.
Import JS ControlledTableResizing.

Lemma newMap_dom_from (entries : list (string * JS.value)) (m : gmap string JS.value) :
  dom (fold_left (fun m kv => <[kv.1 := kv.2]> m) entries m)
    = dom m ∪ list_to_set entries.*1.
Proof.
  revert m. induction entries as [|[k v] entries IH]; intros m; simpl.
  - by rewrite (right_id_L ∅ (∪)).
  - rewrite IH, dom_insert_L.
    by rewrite (comm_L (∪) {[k]} (dom m)), (assoc_L (∪)).
Qed.

Lemma initialWidths_dom (columns : list ColumnData) :
  dom (initialWidths columns) = controlledKeys columns.
Proof.
  unfold initialWidths, newMap, controlledKeys. rewrite newMap_dom_from, dom_empty_L.
  by rewrite <- list_fmap_compose, (left_id_L ∅ (∪)).
Qed.

(** X14. What [setWidths] stores is the given widths restricted to the
    columns that have a width of their own: a controlled key keeps the width
    it was given, no other key is stored, and [onResize] still receives all
    of them.  Storing twice is storing once, and the initial widths, whose
    keys are exactly the controlled ones, are stored as they are. *)
Theorem X14_setWidths_keeps_controlled
  (columns : list ColumnData) (onResize : bool) (vals : gmap string JS.value) :
  let stored := fst (setWidths columns onResize vals) in
  (forall k : string, k ∈ controlledKeys columns -> stored !! k = vals !! k) /\
  (forall k : string, k ∉ controlledKeys columns -> stored !! k = None) /\
  snd (setWidths columns onResize vals) = (if onResize then [vals] else []) /\
  fst (setWidths columns onResize stored) = stored /\
  dom (initialWidths columns) = controlledKeys columns /\
  fst (setWidths columns onResize (initialWidths columns)) = initialWidths columns.
Proof.
  intros stored. subst stored. unfold setWidths. simpl.
  split; [|split; [|split; [|split; [|split]]]].
  - intros k Hk. destruct (vals !! k) as [v|] eqn:Hv.
    + by apply map_lookup_filter_Some.
    + apply map_lookup_filter_None. left. done.
  - intros k Hk. apply map_lookup_filter_None. right. intros v _. done.
  - done.
  - apply map_filter_id. intros k v Hkv.
    apply map_lookup_filter_Some in Hkv as [_ Hk]. exact Hk.
  - apply initialWidths_dom.
  - apply map_filter_id. intros k v Hkv. simpl.
    rewrite <- initialWidths_dom. apply elem_of_dom. by eexists.
Qed.

(** The story's columns: the widths reported for all five columns are cut
    down to the three controlled ones. *)
Example setWidths_someFR :
  let vals : gmap string JS.value :=
    list_to_map [("name"%string, VNumber (of_Z 150)); ("type"%string, VNumber (of_Z 150));
                 ("height"%string, VNumber (of_Z 90)); ("weight"%string, VNumber (of_Z 90));
                 ("level"%string, VNumber (of_Z 400))] in
  fst (setWidths columnsSomeFR false vals)
  = list_to_map [("name"%string, VNumber (of_Z 150)); ("type"%string, VNumber (of_Z 150));
                 ("level"%string, VNumber (of_Z 400))].
Proof. vm_compute. reflexivity. Qed.

End ControlledTableResizingFacts.
